(** * Hot update of the vulnerability database in the trivy server

    A shallow embedding of [internal/server] (the listener, the request
    middleware and the database update worker) and proofs about the
    coordination between request handlers and the background update.

    The Go functions are written once, as programs over the atomic operations
    they perform on shared state ([prog]).  Two semantics are given to the same
    programs: [run] executes one program alone, to the end, and the relation
    [step] interleaves the operations of a pool of goroutines.

    The same programs carry the older [internal/server] of the sources, with
    the gauge as a package variable ([Legacy]); the logger set up by
    [pkg/log] is embedded as pure functions ([log]). *)

From Stdlib Require Import ZArith Ascii String List Lia.
From stdpp Require Import gmap strings list fin_maps.

(** ** Errors ([golang.org/x/xerrors]) *)

(** An error value is kept as the way it was built: [noWrapError] for a plain
    message, [wrapError] for a format with one [%w] operand. *)
Inductive error : Type :=
| noWrapError (msg : string)
| wrapError (format : string) (err : error).

(** [xerrors.Errorf(format, a...)] with at most one operand, an error. *)
Definition xerrors_Errorf (format : string) (a : option error) : error :=
  match a with
  | None => noWrapError format
  | Some err => wrapError format err
  end.

(** The text of [format] with its first [%w] verb replaced by [s]. *)
Fixpoint replace_w (format s : string) : string :=
  match format with
  | EmptyString => EmptyString
  | String c rest =>
      match rest with
      | String c' rest' =>
          if (Ascii.eqb c "%"%char && Ascii.eqb c' "w"%char)%bool then s +:+ rest'
          else String c (replace_w rest s)
      | EmptyString => String c EmptyString
      end
  end.

(** The message part of a format that ends in [": %w"]: the format without
    that suffix, [None] when the format does not end so. *)
Fixpoint trim_wrap_suffix (format : string) : option string :=
  if String.eqb format ": %w" then Some EmptyString
  else
    match format with
    | EmptyString => None
    | String c rest => option_map (String c) (trim_wrap_suffix rest)
    end.

(** [err.Error()].  A [wrapError] prints its message, [": "] and the text of
    the error it wraps.  The message is the format without a closing
    [": %w"]; with the verb anywhere else it is the format with the verb
    printed as the operand's text, so that [Errorf("%w", err)] reads as the
    text of [err] twice (the [wantErr] of the nil gauge case in
    [Test_dbWorker_update]). *)
Fixpoint Error (e : error) : string :=
  match e with
  | noWrapError msg => msg
  | wrapError format err =>
      match trim_wrap_suffix format with
      | Some msg => msg +:+ ": " +:+ Error err
      | None => replace_w format (Error err) +:+ ": " +:+ Error err
      end
  end.

(** [xerrors.Unwrap(e)]: the error [e] wraps, [nil] for a plain message. *)
Definition Unwrap (e : error) : option error :=
  match e with
  | noWrapError _ => None
  | wrapError _ err => Some err
  end.

(** [xerrors.Is(e, target)]: [target] occurs in the chain of [e]. *)
Fixpoint Is (e target : error) : Prop :=
  e = target \/
  match e with
  | noWrapError _ => False
  | wrapError _ err => Is err target
  end.

(** [strings.Contains(s, substr)] *)
Fixpoint strings_Contains (s substr : string) : bool :=
  String.prefix substr s ||
  match s with
  | EmptyString => false
  | String _ rest => strings_Contains rest substr
  end.

(** ** Shared state *)

(** Addresses of the heap objects passed around by pointer. *)
Abbreviation loc := nat.

(** [db.Metadata]; times are Unix seconds. *)
Record Metadata : Type := mkMetadata {
  Version : Z;
  Type_ : Z;
  NextUpdate : Z;
  UpdatedAt : Z
}.

Record World : Type := mkWorld {
  (** counters of the [sync.WaitGroup]s, by address; absent means zero *)
  waitGroups : gmap nat nat;
  (** samples of the [prometheus.GaugeVec]s, by address and by the value of
      their one label, "action"; a sample is a count of Unix seconds, which
      its [float64] holds exactly *)
  gauges : gmap nat (gmap string Z);
  (** regular files, by path *)
  files : gmap string string;
  (** the process-wide database handle of [trivy-db/pkg/db]: the path it is
      open on, or [None] when closed *)
  dbHandle : option string;
  (** how many times the clock was read *)
  clockReads : nat
}.

Definition wgCount (w : World) (wg : loc) : nat :=
  default 0 (waitGroups w !! wg).

Definition setWaitGroups (f : gmap nat nat -> gmap nat nat) (w : World) : World :=
  mkWorld (f (waitGroups w)) (gauges w) (files w) (dbHandle w) (clockReads w).

Definition setGauges (f : gmap nat (gmap string Z) -> gmap nat (gmap string Z))
    (w : World) : World :=
  mkWorld (waitGroups w) (f (gauges w)) (files w) (dbHandle w) (clockReads w).

Definition setFiles (f : gmap string string -> gmap string string) (w : World) : World :=
  mkWorld (waitGroups w) (gauges w) (f (files w)) (dbHandle w) (clockReads w).

Definition setDbHandle (h : option string) (w : World) : World :=
  mkWorld (waitGroups w) (gauges w) (files w) h (clockReads w).

Definition tickClock (w : World) : World :=
  mkWorld (waitGroups w) (gauges w) (files w) (dbHandle w) (S (clockReads w)).

(** [db.Path(dir)] of trivy-db: [filepath.Join(dir, "db", "trivy.db")]. *)
Definition db_Path (dir : string) : string := dir +:+ "/db/trivy.db".

(** [p] lies in the directory tree rooted at [dir]. *)
Definition under (dir p : string) : bool :=
  String.eqb dir p || String.prefix (dir +:+ "/") p.

(** ** Collaborators *)

(** An inbound HTTP request: an identity and its headers ([r.Header.Get]). *)
Record Request : Type := mkRequest {
  req_id : nat;
  req_header : string -> string
}.

(** How a call of the wrapped handler ends.  An error answer is a normal
    return of [ServeHTTP]; a panic unwinds through the middleware. *)
Inductive serve_outcome : Type :=
| ServedOK
| ServedError
| ServePanicked.

(** Modelled from the spec: [dbFile.Operation] (pkg/db), the interface of the
    database client, is declared outside the sources.  Its three methods are
    those the worker calls.  A method may answer from the state it is called
    in.  [Download] downloads into [dir]: it answers with the bytes it leaves
    at [db.Path(dir)], if any, and its error. *)
Record Operation : Type := mkOperation {
  NeedsUpdate : string -> bool -> bool -> World -> bool * option error;
  Download : string -> bool -> World -> option string * option error;
  UpdateMetadata : string -> World -> option error
}.

(** What the rest of the environment answers: the clock, the operating system,
    the database package, the metadata file and the wrapped handlers. *)
Record Env : Type := mkEnv {
  (** the k-th reading of [time.Now().Unix()] *)
  clock : nat -> Z;
  (** [ioutil.TempDir(dir, pattern)] *)
  TempDir : string -> string -> World -> string + error;
  (** [db.Close()] *)
  Close : World -> option error;
  (** a failure of [utils.CopyFile(src, dst)] other than a missing source *)
  CopyFile_fault : string -> string -> World -> option error;
  (** [db.Init(dir)] *)
  Init : string -> World -> option error;
  (** [dbFile.NewMetadata(fs, dir).Get()] *)
  Metadata_Get : string -> World -> Metadata + error;
  (** [base.ServeHTTP(w, r)] *)
  ServeHTTP : Request -> World -> serve_outcome
}.

(** ** Atomic operations *)

(** The operations a goroutine performs on the shared state or asks of a
    collaborator, indexed by the type of their answer. *)
Inductive action : Type -> Type :=
| ANow : action Z
| AGaugeSet (g : loc) (label : string) (v : Z) : action unit
| ANeedsUpdate (c : Operation) (appVersion : string) (forceFull skip : bool) :
    action (bool * option error)
| ADownload (c : Operation) (dir : string) (quiet : bool) : action (option error)
| AUpdateMetadata (c : Operation) (dir : string) : action (option error)
| ATempDir (dir pattern : string) : action (string + error)
| ARemoveAll (path : string) : action unit
| AWgAdd (wg : loc) (delta : nat) : action unit
| AWgDone (wg : loc) : action bool
| AWgWait (wg : loc) : action unit
| ADbClose : action (option error)
| ACopyFile (src dst : string) : action (option error)
| ADbInit (dir : string) : action (option error)
| AMetadataGet (dir : string) : action (Metadata + error)
| AServeHTTP (r : Request) : action (option string * serve_outcome)
| AWriteError (r : Request) : action unit
| ADebug (msg : string) : action unit
| AInfo (msg : string) : action unit
| AErrorf (err : error) : action unit.

(** What an execution leaves behind: each operation with its answer. *)
Inductive event : Type :=
| EvNow (t : Z)
| EvGaugeSet (g : loc) (label : string) (v : Z)
| EvNeedsUpdate (appVersion : string) (forceFull skip : bool) (res : bool * option error)
| EvDownload (dir : string) (quiet : bool) (res : option error)
| EvUpdateMetadata (dir : string) (res : option error)
| EvTempDir (res : string + error)
| EvRemoveAll (path : string)
| EvWgAdd (wg : loc) (delta : nat)
| EvWgDone (wg : loc) (ok : bool)
| EvWgWait (wg : loc)
| EvDbClose (res : option error)
| EvCopyFile (src dst : string) (res : option error)
| EvDbInit (dir : string) (res : option error)
| EvMetadataGet (dir : string) (res : Metadata + error)
| EvServeHTTP (r : nat) (seen : option string) (out : serve_outcome)
| EvWriteError (r : nat)
| EvDebug (msg : string)
| EvInfo (msg : string)
| EvErrorf (err : error).

Definition event_of {X : Type} (e : action X) : X -> event :=
  match e in action X return X -> event with
  | ANow => fun t => EvNow t
  | AGaugeSet g label v => fun _ => EvGaugeSet g label v
  | ANeedsUpdate _ appVersion forceFull skip =>
      fun res => EvNeedsUpdate appVersion forceFull skip res
  | ADownload _ dir quiet => fun res => EvDownload dir quiet res
  | AUpdateMetadata _ dir => fun res => EvUpdateMetadata dir res
  | ATempDir _ _ => fun res => EvTempDir res
  | ARemoveAll path => fun _ => EvRemoveAll path
  | AWgAdd wg delta => fun _ => EvWgAdd wg delta
  | AWgDone wg => fun ok => EvWgDone wg ok
  | AWgWait wg => fun _ => EvWgWait wg
  | ADbClose => fun res => EvDbClose res
  | ACopyFile src dst => fun res => EvCopyFile src dst res
  | ADbInit dir => fun res => EvDbInit dir res
  | AMetadataGet dir => fun res => EvMetadataGet dir res
  | AServeHTTP r => fun res => EvServeHTTP (req_id r) (fst res) (snd res)
  | AWriteError r => fun _ => EvWriteError (req_id r)
  | ADebug msg => fun _ => EvDebug msg
  | AInfo msg => fun _ => EvInfo msg
  | AErrorf err => fun _ => EvErrorf err
  end.

(** Modelled from the spec: [utils.CopyFile] (pkg/utils) is not among the
    sources.  The spec asks for an all-or-nothing replace of [dst] by [src]: a
    copy that fails, for a missing source or for any other fault, leaves [dst]
    as it was; a copy that succeeds leaves exactly the bytes of [src]. *)
Definition CopyFile (env : Env) (src dst : string) (w : World) : option error * World :=
  match files w !! src with
  | None => (Some (noWrapError ("stat " +:+ src +:+ ": no such file or directory")), w)
  | Some bytes =>
      match CopyFile_fault env src dst w with
      | Some err => (Some err, w)
      | None => (None, setFiles (insert dst bytes) w)
      end
  end.

(** [os.RemoveAll(path)]: [path] and everything below it is gone. *)
Definition RemoveAll (path : string) (w : World) : World :=
  setFiles (filter (fun kv => under path kv.1 = false)) w.

(** One operation, executed atomically in [w]: its answer and the state it
    leaves, or [None] when it cannot proceed yet ([Wait] on a counter that is
    not zero). *)
Definition exec (env : Env) {X : Type} (e : action X) (w : World) : option (X * World) :=
  match e in action X return option (X * World) with
  | ANow => Some (clock env (clockReads w), tickClock w)
  | AGaugeSet g label v =>
      Some (tt, setGauges (fun gs => <[g := <[label := v]> (default ∅ (gs !! g))]> gs) w)
  | ANeedsUpdate c appVersion forceFull skip =>
      Some (NeedsUpdate c appVersion forceFull skip w, w)
  | ADownload c dir quiet =>
      Some (snd (Download c dir quiet w),
            match fst (Download c dir quiet w) with
            | Some bytes => setFiles (insert (db_Path dir) bytes) w
            | None => w
            end)
  | AUpdateMetadata c dir => Some (UpdateMetadata c dir w, w)
  | ATempDir dir pattern => Some (TempDir env dir pattern w, w)
  | ARemoveAll path => Some (tt, RemoveAll path w)
  | AWgAdd wg delta =>
      Some (tt, setWaitGroups (insert wg (wgCount w wg + delta)) w)
  | AWgDone wg =>
      match wgCount w wg with
      | O => Some (false, w)
      | S n => Some (true, setWaitGroups (insert wg n) w)
      end
  | AWgWait wg =>
      match wgCount w wg with
      | O => Some (tt, w)
      | S _ => None
      end
  | ADbClose =>
      match Close env w with
      | None => Some (None, setDbHandle None w)
      | Some err => Some (Some err, w)
      end
  | ACopyFile src dst => Some (CopyFile env src dst w)
  | ADbInit dir =>
      match Init env dir w with
      | None => Some (None, setDbHandle (Some (db_Path dir)) w)
      | Some err => Some (Some err, w)
      end
  | AMetadataGet dir => Some (Metadata_Get env dir w, w)
  | AServeHTTP r => Some ((dbHandle w, ServeHTTP env r w), w)
  | AWriteError _ => Some (tt, w)
  | ADebug _ => Some (tt, w)
  | AInfo _ => Some (tt, w)
  | AErrorf _ => Some (tt, w)
  end.

(** ** Programs *)

(** A Go function body: it returns, panics, or performs an operation and goes
    on from its answer. *)
Inductive prog (A : Type) : Type :=
| Ret (a : A)
| Panic
| Act {X : Type} (e : action X) (k : X -> prog A).

Arguments Ret {A} a.
Arguments Panic {A}.
Arguments Act {A X} e k.

Fixpoint bind {A B : Type} (p : prog A) (f : A -> prog B) : prog B :=
  match p with
  | Ret a => f a
  | Panic => Panic
  | Act e k => Act e (fun x => bind (k x) f)
  end.

Notation "'let!' x ':=' p 'in' k" := (bind p (fun x => k))
  (at level 10, x pattern, p at level 100, k at level 200).

Definition call {X : Type} (e : action X) : prog X := Act e Ret.

(** [defer cleanup(); body]: [cleanup] runs when [body] returns and when it
    panics, and the outcome of [body] stands. *)
Fixpoint defer {A : Type} (cleanup : prog unit) (body : prog A) : prog A :=
  match body with
  | Ret a => let! _ := cleanup in Ret a
  | Panic => let! _ := cleanup in Panic
  | Act e k => Act e (fun x => defer cleanup (k x))
  end.

(** How the execution of a program alone ends. *)
Inductive outcome (A : Type) : Type :=
| Returned (a : A)
| Panicked
| Blocked.

Arguments Returned {A} a.
Arguments Panicked {A}.
Arguments Blocked {A}.

Record result (A : Type) : Type := mkResult {
  outcomeOf : outcome A;
  worldOf : World;
  eventsOf : list event
}.

Arguments mkResult {A}.
Arguments outcomeOf {A}.
Arguments worldOf {A}.
Arguments eventsOf {A}.

(** The program [p] executed alone from [w].  With no other goroutine to
    release it, an operation that cannot proceed blocks for good. *)
Fixpoint run (env : Env) {A : Type} (p : prog A) (w : World) : result A :=
  match p with
  | Ret a => mkResult (Returned a) w []
  | Panic => mkResult Panicked w []
  | Act e k =>
      match exec env e w with
      | None => mkResult Blocked w []
      | Some (x, w') =>
          let r := run env (k x) w' in
          mkResult (outcomeOf r) (worldOf r) (event_of e x :: eventsOf r)
      end
  end.

(** ** The calls of the server, as programs *)

Definition time_Now_Unix : prog Z := call ANow.
Definition Logger_Debug (msg : string) : prog unit := call (ADebug msg).
Definition Logger_Info (msg : string) : prog unit := call (AInfo msg).
Definition Logger_Errorf (err : error) : prog unit := call (AErrorf err).
Definition ioutil_TempDir (dir pattern : string) : prog (string + error) :=
  call (ATempDir dir pattern).
Definition os_RemoveAll (path : string) : prog unit := call (ARemoveAll path).
Definition db_Close : prog (option error) := call ADbClose.
Definition db_Init (dir : string) : prog (option error) := call (ADbInit dir).
Definition utils_CopyFile (src dst : string) : prog (option error) :=
  call (ACopyFile src dst).
Definition detector_WriteError (r : Request) : prog unit := call (AWriteError r).

(** [wg.Add(delta)], for the positive deltas the server uses. *)
Definition WaitGroup_Add (wg : loc) (delta : nat) : prog unit := call (AWgAdd wg delta).

(** [wg.Wait()] *)
Definition WaitGroup_Wait (wg : loc) : prog unit := call (AWgWait wg).

(** [wg.Done()]: panics ("sync: negative WaitGroup counter") on a counter that
    is zero. *)
Definition WaitGroup_Done (wg : loc) : prog unit :=
  let! ok := call (AWgDone wg) in
  if ok : bool then Ret tt else Panic.

(** [gauge.With(prometheus.Labels{"action": label}).Set(v)]; a nil [gauge] is
    dereferenced. *)
Definition GaugeVec_With_Set (gauge : option loc) (label : string) (v : Z) : prog unit :=
  match gauge with
  | None => Panic
  | Some g => call (AGaugeSet g label v)
  end.

(** ** [internal/server]: metrics *)

Definition updateLastDBUpdatePrometheus (gauge : option loc) (time : Z)
    (onlyDBAttempt : bool) : prog (option error) :=
  if decide (gauge = None) then
    Ret (Some (xerrors_Errorf "Prometheus gauge found to be nil" None))
  else
    let! _ := (if onlyDBAttempt
               then GaugeVec_With_Set gauge "last_db_update_attempt" time
               else GaugeVec_With_Set gauge "last_db_update" time) in
    Ret None.

Definition initializeMetricGauge (gauge : option loc) (cacheDir : string) :
    prog (option error) :=
  let! got := call (AMetadataGet cacheDir) in
  match got with
  | inr err =>
      Ret (Some (xerrors_Errorf
                   "Error initialising the metrics for prometheus endpoint: %w" (Some err)))
  | inl metadata =>
      let! err := updateLastDBUpdatePrometheus gauge (UpdatedAt metadata) true in
      match err with
      | Some err => Ret (Some (xerrors_Errorf "%w" (Some err)))
      | None =>
          let! err := updateLastDBUpdatePrometheus gauge (UpdatedAt metadata) false in
          match err with
          | Some err => Ret (Some (xerrors_Errorf "%w" (Some err)))
          | None => Ret None
          end
      end
  end.

(** ** [internal/server]: the update worker *)

Record dbWorker : Type := mkDbWorker {
  dbClient : Operation
}.

Definition newDBWorker (dbClient : Operation) : dbWorker := mkDbWorker dbClient.

(** The context handed to [Download] is [context.Background()], which is never
    cancelled; it is left out. *)
Definition hotUpdate (w : dbWorker) (cacheDir : string) (dbUpdateWg requestWg : loc) :
    prog (option error) :=
  let! made := ioutil_TempDir EmptyString "db" in
  match made with
  | inr err => Ret (Some (xerrors_Errorf "failed to create a temp dir: %w" (Some err)))
  | inl tmpDir =>
      defer (os_RemoveAll tmpDir) (
        let! err := call (ADownload (dbClient w) tmpDir false) in
        match err with
        | Some err =>
            Ret (Some (xerrors_Errorf "failed to download vulnerability DB: %w" (Some err)))
        | None =>
            let! _ := Logger_Info "Suspending all requests during DB update" in
            let! _ := WaitGroup_Add dbUpdateWg 1 in
            defer (WaitGroup_Done dbUpdateWg) (
              let! _ := Logger_Info
                          "Waiting for all requests to be processed before DB update..." in
              let! _ := WaitGroup_Wait requestWg in
              let! err := db_Close in
              match err with
              | Some err => Ret (Some (xerrors_Errorf "failed to close DB: %w" (Some err)))
              | None =>
                  let! err := utils_CopyFile (db_Path tmpDir) (db_Path cacheDir) in
                  match err with
                  | Some err =>
                      Ret (Some (xerrors_Errorf "failed to copy the database file: %w"
                                   (Some err)))
                  | None =>
                      let! err := call (AUpdateMetadata (dbClient w) cacheDir) in
                      match err with
                      | Some err =>
                          Ret (Some (xerrors_Errorf "unable to update database metadata: %w"
                                       (Some err)))
                      | None =>
                          let! _ := Logger_Info "Reopening DB..." in
                          let! err := db_Init cacheDir in
                          match err with
                          | Some err =>
                              Ret (Some (xerrors_Errorf "failed to open DB: %w" (Some err)))
                          | None => Ret None
                          end
                      end
                  end
              end)
        end)
  end.

Definition update (w : dbWorker) (appVersion cacheDir : string)
    (dbUpdateWg requestWg : loc) (gaugeMetric : option loc) : prog (option error) :=
  let! now := time_Now_Unix in
  let! err := updateLastDBUpdatePrometheus gaugeMetric now true in
  match err with
  | Some err => Ret (Some (xerrors_Errorf "%w" (Some err)))
  | None =>
      let! _ := Logger_Debug "Check for DB update..." in
      let! answer := call (ANeedsUpdate (dbClient w) appVersion false false) in
      match snd answer with
      | Some _ => Ret (Some (xerrors_Errorf "failed to check if db needs an update" None))
      | None =>
          if negb (fst answer) then Ret None
          else
            let! _ := Logger_Info "Updating DB..." in
            let! err := hotUpdate w cacheDir dbUpdateWg requestWg in
            match err with
            | Some _ => Ret (Some (xerrors_Errorf "failed DB hot update" None))
            | None =>
                let! now := time_Now_Unix in
                let! err := updateLastDBUpdatePrometheus gaugeMetric now false in
                match err with
                | Some err => Ret (Some (xerrors_Errorf "%w" (Some err)))
                | None => Ret None
                end
            end
      end
  end.

(** ** [internal/server]: the listener *)

(** The fields of [config.Config] the listener reads. *)
Record Config : Type := mkConfig {
  AppVersion : string;
  CacheDir : string;
  Token : string;
  TokenHeader : string;
  GaugeMetric : option loc
}.

(** The wrapped handler of a route: it reads the database through the
    process-wide handle; a panic of the handler unwinds. *)
Definition base_ServeHTTP (r : Request) : prog unit :=
  let! served := call (AServeHTTP r) in
  match snd served with
  | ServePanicked => Panic
  | ServedOK | ServedError => Ret tt
  end.

Definition withWaitGroup (dbUpdateWg requestWg : loc) (base : Request -> prog unit)
    (r : Request) : prog unit :=
  let! _ := WaitGroup_Wait dbUpdateWg in
  let! _ := WaitGroup_Add requestWg 1 in
  defer (WaitGroup_Done requestWg) (base r).

Definition withToken (base : Request -> prog unit) (token tokenHeader : string)
    (r : Request) : prog unit :=
  if negb (String.eqb token EmptyString) && negb (String.eqb token (req_header r tokenHeader))
  then detector_WriteError r
  else base r.

(** The loop of the background goroutine, cut after [n] rounds.  The hour of
    sleep before each round only lets time pass. *)
Fixpoint updateLoop (n : nat) (worker : dbWorker) (c : Config)
    (dbUpdateWg requestWg : loc) (gaugeMetric : option loc) : prog unit :=
  match n with
  | O => Ret tt
  | S n' =>
      let! err := update worker (AppVersion c) (CacheDir c) dbUpdateWg requestWg
                    gaugeMetric in
      let! _ := match err with
                | Some err => Logger_Errorf err
                | None => Ret tt
                end in
      updateLoop n' worker c dbUpdateWg requestWg gaugeMetric
  end.

(** The background goroutine of [ListenAndServe]: the gauge is seeded from the
    metadata and, when that fails, set to nil for the rounds that follow. *)
Definition updateGoroutine (n : nat) (worker : dbWorker) (c : Config)
    (dbUpdateWg requestWg : loc) : prog unit :=
  let! err := initializeMetricGauge (GaugeMetric c) (CacheDir c) in
  let! gaugeMetric := match err with
                      | Some err => let! _ := Logger_Errorf err in Ret None
                      | None => Ret (GaugeMetric c)
                      end in
  updateLoop n worker c dbUpdateWg requestWg gaugeMetric.

(** What [ListenAndServe] registers for every route. *)
Definition handler (c : Config) (dbUpdateWg requestWg : loc) : Request -> prog unit :=
  withToken (withWaitGroup dbUpdateWg requestWg base_ServeHTTP) (Token c) (TokenHeader c).

(** [&sync.WaitGroup{}]: a new counter, at zero. *)
Definition new_WaitGroup (w : World) : loc * World :=
  let wg := fresh (dom (waitGroups w)) in
  (wg, setWaitGroups (insert wg 0) w).

(** ** Goroutines *)

(** The state of the process: the shared state, the goroutines by index with
    what each has left to do, and what happened so far, by goroutine. *)
Record cstate : Type := mkCstate {
  cs_world : World;
  cs_pool : list (prog unit);
  cs_trace : list (nat * event)
}.

(** Goroutine [i] performs its next operation.  Operations are atomic and
    goroutines interleave between them; the body of a wrapped handler counts
    as one operation, which reads the database handle. *)
Definition fire (env : Env) (i : nat) (s : cstate) : option cstate :=
  match cs_pool s !! i with
  | Some (Act e k) =>
      match exec env e (cs_world s) with
      | Some (x, w') =>
          Some (mkCstate w' (<[i := k x]> (cs_pool s)) (cs_trace s ++ [(i, event_of e x)]))
      | None => None
      end
  | Some (Ret _) | Some Panic | None => None
  end.

Definition step (env : Env) (s s' : cstate) : Prop := exists i, fire env i s = Some s'.

Definition reachable (env : Env) (s s' : cstate) : Prop := rtc (step env) s s'.

(** The goroutines fire in the order [sch] gives. *)
Fixpoint schedule (env : Env) (sch : list nat) (s : cstate) : option cstate :=
  match sch with
  | [] => Some s
  | i :: sch' =>
      match fire env i s with
      | Some s' => schedule env sch' s'
      | None => None
      end
  end.

(** What goroutine [i] did. *)
Definition thread_events (i : nat) (tr : list (nat * event)) : list event :=
  snd <$> List.filter (fun ie => Nat.eqb (fst ie) i) tr.

Definition finished {A : Type} (p : prog A) : Prop :=
  match p with
  | Ret _ | Panic => True
  | Act _ _ => False
  end.

(** [ListenAndServe]: the two wait groups are made, the update goroutine is
    started (index 0, cut after [n] rounds), and every inbound request is
    served in a goroutine of its own by the handler of its route; all routes
    are wrapped alike.  The worker is the one [initializeDBWorker] builds. *)
Definition ListenAndServe (c : Config) (worker : dbWorker) (n : nat)
    (requests : list Request) (w : World) : cstate :=
  let '(requestWg, w1) := new_WaitGroup w in
  let '(dbUpdateWg, w2) := new_WaitGroup w1 in
  mkCstate w2
    (updateGoroutine n worker c dbUpdateWg requestWg
       :: (handler c dbUpdateWg requestWg <$> requests))
    [].

Definition requestWg_of (w : World) : loc := fst (new_WaitGroup w).
Definition dbUpdateWg_of (w : World) : loc := fst (new_WaitGroup (snd (new_WaitGroup w))).

(** [p'] is what is left of [p] after the operations [evs]. *)
Fixpoint path {A : Type} (p : prog A) (evs : list event) (p' : prog A) {struct evs} :
    Prop :=
  match evs with
  | [] => p' = p
  | ev :: evs' =>
      match p with
      | Act e k => exists x, ev = event_of e x /\ path (k x) evs' p'
      | Ret _ | Panic => False
      end
  end.

(** No operation of [p] leaves an event that [bad] holds of. *)
Fixpoint avoids {A : Type} (bad : event -> bool) (p : prog A) : Prop :=
  match p with
  | Act e k => forall x, bad (event_of e x) = false /\ avoids bad (k x)
  | Ret _ | Panic => True
  end.

(** ** Reading traces *)

Definition is_NeedsUpdate (e : event) : bool :=
  match e with EvNeedsUpdate _ _ _ _ => true | _ => false end.

Definition is_Download (e : event) : bool :=
  match e with EvDownload _ _ _ => true | _ => false end.

(** The operations on the wait groups: the admission gate. *)
Definition is_gate (e : event) : bool :=
  match e with EvWgAdd _ _ | EvWgDone _ _ | EvWgWait _ => true | _ => false end.

(** The operations of the swap: close, copy, metadata, reopen. *)
Definition is_swap (e : event) : bool :=
  match e with
  | EvDbClose _ | EvCopyFile _ _ _ | EvUpdateMetadata _ _ | EvDbInit _ _ => true
  | _ => false
  end.

Definition is_GaugeSet (label : string) (e : event) : bool :=
  match e with EvGaugeSet _ l _ => String.eqb l label | _ => false end.

Definition calls (f : event -> bool) (evs : list event) : nat :=
  length (List.filter f evs).

(** By how much an event raises, and lowers, the counter of [wg]. *)
Definition added (wg : loc) (e : event) : nat :=
  match e with
  | EvWgAdd wg' delta => if Nat.eqb wg' wg then delta else 0
  | _ => 0
  end.

Definition released (wg : loc) (e : event) : nat :=
  match e with
  | EvWgDone wg' true => if Nat.eqb wg' wg then 1 else 0
  | _ => 0
  end.

Definition total (f : event -> nat) (evs : list event) : nat := sum_list_with f evs.

(** The steps of the hot swap, in the order the spec lists them. *)
Inductive swap_step : Type :=
| MarkUpdate
| WaitForDrain
| CloseHandle
| ReplaceFile
| PersistMetadata
| ReopenHandle.

Definition hot_swap_order : list swap_step :=
  [MarkUpdate; WaitForDrain; CloseHandle; ReplaceFile; PersistMetadata; ReopenHandle].

Definition swap_step_of (dbUpdateWg requestWg : loc) (e : event) : option swap_step :=
  match e with
  | EvWgAdd wg _ => if Nat.eqb wg dbUpdateWg then Some MarkUpdate else None
  | EvWgWait wg => if Nat.eqb wg requestWg then Some WaitForDrain else None
  | EvDbClose _ => Some CloseHandle
  | EvCopyFile _ _ _ => Some ReplaceFile
  | EvUpdateMetadata _ _ => Some PersistMetadata
  | EvDbInit _ _ => Some ReopenHandle
  | _ => None
  end.

Definition swap_steps (dbUpdateWg requestWg : loc) (evs : list event) : list swap_step :=
  omap (swap_step_of dbUpdateWg requestWg) evs.

(** The error of a recording on a gauge that was never constructed. *)
Definition gauge_nil_error : error := noWrapError "Prometheus gauge found to be nil".

(** The directory [dir] is new in [w]: nothing exists below it.  That is what
    [ioutil.TempDir] promises of the path it answers with. *)
Definition is_new_dir (dir : string) (w : World) : Prop :=
  forall p, under dir p = true -> files w !! p = None.

(** [r1], then what [f] makes of its value in the state it leaves. *)
Definition seq_result {A B : Type} (r1 : result A) (f : A -> World -> result B) :
    result B :=
  match outcomeOf r1 with
  | Returned a =>
      let r2 := f a (worldOf r1) in
      mkResult (outcomeOf r2) (worldOf r2) (eventsOf r1 ++ eventsOf r2)
  | Panicked => mkResult Panicked (worldOf r1) (eventsOf r1)
  | Blocked => mkResult Blocked (worldOf r1) (eventsOf r1)
  end.

(** The errors a trace logs, in order. *)
Definition logged_errors (evs : list event) : list error :=
  omap (fun e => match e with EvErrorf err => Some err | _ => None end) evs.

(** The sample of [label] in the gauge at [g]. *)
Definition sample (w : World) (g : loc) (label : string) : option Z :=
  gauges w !! g ≫= fun children => children !! label.

(** The claim that every cycle opens by recording the attempt: the clock is
    read and the "last_db_update_attempt" sample of the gauge is set to that
    reading before anything else happens. *)
Definition attempt_recorded_first (env : Env) (wk : dbWorker) (appVersion cacheDir : string)
    (dbUpdateWg requestWg : loc) (gaugeMetric : option loc) (w : World) : Prop :=
  exists g rest,
    eventsOf (run env (update wk appVersion cacheDir dbUpdateWg requestWg gaugeMetric) w)
    = EvNow (clock env (clockReads w))
        :: EvGaugeSet g "last_db_update_attempt" (clock env (clockReads w)) :: rest.

(** Nothing of an update happened between [w] and the end of [r]: the client
    was not asked, nothing was downloaded, the gate and the database were not
    touched. *)
Definition no_update_activity {A : Type} (w : World) (r : result A) : Prop :=
  calls is_NeedsUpdate (eventsOf r) = 0 /\
  calls is_Download (eventsOf r) = 0 /\
  calls is_gate (eventsOf r) = 0 /\
  calls is_swap (eventsOf r) = 0 /\
  waitGroups (worldOf r) = waitGroups w /\
  files (worldOf r) = files w /\
  dbHandle (worldOf r) = dbHandle w.

(** The trace records a copy that succeeded. *)
Definition replaced (evs : list event) : bool :=
  existsb (fun e => match e with EvCopyFile _ _ None => true | _ => false end) evs.

(** The staged database: what is at [db.Path(tmpDir)] once [Download] into
    [tmpDir] has returned, the download starting in [w]. *)
Definition staged (env : Env) (wk : dbWorker) (tmpDir : string) (w : World) : option string :=
  files (worldOf (run env (call (ADownload (dbClient wk) tmpDir false)) w)) !! db_Path tmpDir.


(** The events that move the counter of [wg]. *)
Definition moves (wg : loc) (e : event) : bool :=
  match e with
  | EvWgAdd wg' _ | EvWgDone wg' _ => Nat.eqb wg' wg
  | _ => false
  end.

(** ** A concrete server, for the executions exhibited below *)

Module Scenario.

(** A client that reports a new version and downloads it. *)
Definition client : Operation :=
  mkOperation (fun _ _ _ _ => (true, None))
              (fun _ _ _ => (Some "new database", None))
              (fun _ _ => None).

(** A client that reports no new version. *)
Definition idle_client : Operation :=
  mkOperation (fun _ _ _ _ => (false, None))
              (fun _ _ _ => (Some "new database", None))
              (fun _ _ => None).

(** A client that cannot tell whether there is a new version. *)
Definition unreachable_client : Operation :=
  mkOperation (fun _ _ _ _ => (false, Some (noWrapError "connection refused")))
              (fun _ _ _ => (Some "new database", None))
              (fun _ _ => None).

(** A client whose download breaks off, leaving a partial file. *)
Definition broken_client : Operation :=
  mkOperation (fun _ _ _ _ => (true, None))
              (fun _ _ _ => (Some "new data", Some (noWrapError "unexpected EOF")))
              (fun _ _ => None).

Definition metadata : Metadata := mkMetadata 1 1 1600043200 1600000000.

(** The clock advances by a second per reading; request 0 is answered,
    request 1 is answered with an error, the others make the handler panic.
    [copy_fault] and [metadata_fault] set what the copy of the database and
    the reading of the metadata answer. *)
Definition env (copy_fault metadata_fault : option error) : Env :=
  mkEnv (fun k => (1600003600 + Z.of_nat k)%Z)
        (fun _ _ _ => inl "/tmp/db123")
        (fun _ => None)
        (fun _ _ _ => copy_fault)
        (fun _ _ => None)
        (fun _ _ => match metadata_fault with
                    | Some err => inr err
                    | None => inl metadata
                    end)
        (fun r _ => match req_id r with
                    | 0 => ServedOK
                    | 1 => ServedError
                    | _ => ServePanicked
                    end).

(** One gauge, at address 7; the live database, open. *)
Definition world : World :=
  mkWorld ∅ (<[7 := ∅]> ∅) (<["/cache/db/trivy.db" := "old database"]> ∅)
          (Some "/cache/db/trivy.db") 0.

Definition config : Config := mkConfig "dev" "/cache" EmptyString "Trivy-Token" (Some 7).

Definition request (id : nat) : Request := mkRequest id (fun _ => EmptyString).

(** One request and one round of the update goroutine. *)
Definition racing : cstate :=
  ListenAndServe config (newDBWorker client) 1 [request 0] world.

(** The request passes the check of [dbUpdateWg]; the update goroutine then
    runs up to and including the close of the database (fifteen
    operations); the request counts itself in and is served. *)
Definition race : list nat := [1] ++ replicate 15 0 ++ [1; 1].




End Scenario.

(** ** A server that asks for a token *)

Module Guarded.

Definition config : Config := mkConfig "dev" "/cache" "s3cret" "Trivy-Token" (Some 7).

(** A request that carries [token] in the header the server reads. *)
Definition request (id : nat) (token : string) : Request :=
  mkRequest id (fun h => if String.eqb h "Trivy-Token" then token else EmptyString).

(** A request with a wrong token and one with the right token arrive. *)
Definition arrivals : cstate :=
  ListenAndServe config (newDBWorker Scenario.client) 1
    [request 0 "guess"; request 1 "s3cret"] Scenario.world.

(** Both requests run to their end, the first one first. *)
Definition arrivals_end : cstate :=
  default arrivals (schedule (Scenario.env None None) [1; 2; 2; 2; 2] arrivals).

End Guarded.

(** ** Failures of the collaborators *)

(** The error an operation of the update answered with, when it failed. *)
Definition failure_of (e : event) : option error :=
  match e with
  | EvTempDir (inr err) => Some err
  | EvDownload _ _ (Some err) => Some err
  | EvDbClose (Some err) => Some err
  | EvCopyFile _ _ (Some err) => Some err
  | EvUpdateMetadata _ (Some err) => Some err
  | EvDbInit _ (Some err) => Some err
  | _ => None
  end.

Definition is_RemoveAll (e : event) : bool :=
  match e with EvRemoveAll _ => true | _ => false end.

(** The two errors a cycle with a gauge can return. *)
Definition cycle_error (err : error) : Prop :=
  err = xerrors_Errorf "failed to check if db needs an update" None
  \/ err = xerrors_Errorf "failed DB hot update" None.

(** ** The server with the gauge as a package variable *)

(** The sources hold a second [internal/server], in which the gauge is the
    package variable [GaugeMetric], constructed when the package is loaded,
    and recording a sample returns nothing.  [hotUpdate] is the same. *)
Module Legacy.

Definition updateLastDBUpdatePrometheus (gauge : option loc) (time : Z) : prog unit :=
  GaugeVec_With_Set gauge "last_db_update" time.

Definition updateLastDBUpdateAttemptPrometheus (gauge : option loc) (time : Z) : prog unit :=
  GaugeVec_With_Set gauge "last_db_update_attempt" time.

Definition initializeMetricGauge (gauge : option loc) (cacheDir : string) :
    prog (option error) :=
  let! got := call (AMetadataGet cacheDir) in
  match got with
  | inr err =>
      Ret (Some (xerrors_Errorf
                   "Error initialising the metrics for prometheus endpoint: %w" (Some err)))
  | inl metadata =>
      let! _ := updateLastDBUpdatePrometheus gauge (UpdatedAt metadata) in
      let! _ := updateLastDBUpdateAttemptPrometheus gauge (UpdatedAt metadata) in
      Ret None
  end.

Definition update (GaugeMetric : option loc) (w : dbWorker) (appVersion cacheDir : string)
    (dbUpdateWg requestWg : loc) : prog (option error) :=
  let! currentTime := time_Now_Unix in
  let! _ := updateLastDBUpdateAttemptPrometheus GaugeMetric currentTime in
  let! _ := Logger_Debug "Check for DB update..." in
  let! answer := call (ANeedsUpdate (dbClient w) appVersion false false) in
  match snd answer with
  | Some _ => Ret (Some (xerrors_Errorf "failed to check if db needs an update" None))
  | None =>
      if negb (fst answer) then Ret None
      else
        let! _ := Logger_Info "Updating DB..." in
        let! err := hotUpdate w cacheDir dbUpdateWg requestWg in
        match err with
        | Some _ => Ret (Some (xerrors_Errorf "failed DB hot update" None))
        | None =>
            let! _ := updateLastDBUpdatePrometheus GaugeMetric currentTime in
            Ret None
        end
  end.

End Legacy.

(** ** [pkg/log] *)

Module log.

(** [zapcore.Level], an [int8]: from Debug, -1, up to Fatal, 5. *)
Definition Level : Type := Z.
Definition DebugLevel : Level := (-1)%Z.
Definition InfoLevel : Level := 0%Z.
Definition WarnLevel : Level := 1%Z.
Definition ErrorLevel : Level := 2%Z.
Definition DPanicLevel : Level := 3%Z.
Definition PanicLevel : Level := 4%Z.
Definition FatalLevel : Level := 5%Z.

(** Where a core writes: [os.Stdout], [os.Stderr], or the file opened on
    [os.DevNull]. *)
Inductive WriteSyncer : Type :=
| Stdout
| Stderr
| DevNull.

(** [zapcore.NewCore(enc, ws, enab)]: the entries of the levels [enab] accepts
    are written to [ws]. *)
Record Core : Type := mkCore {
  core_ws : WriteSyncer;
  core_enab : Level -> bool
}.

(** [*zap.SugaredLogger]: the cores that [zapcore.NewTee] joins, and whether
    [zap.Development()] is among the options. *)
Record SugaredLogger : Type := mkSugaredLogger {
  cores : list Core;
  development : bool
}.

Definition errorPriority (lvl : Level) : bool := (ErrorLevel <=? lvl)%Z.

Definition logPriority (debug : bool) (lvl : Level) : bool :=
  if debug then (lvl <? ErrorLevel)%Z
  else (DebugLevel <? lvl)%Z && (lvl <? ErrorLevel)%Z.

(** [NewLogger(debug, disable)]; [os_Create] is the error of
    [os.Create(os.DevNull)], if any. *)
Definition NewLogger (os_Create : option error) (debug disable : bool) :
    option SugaredLogger * option error :=
  let consoleErrors := Stderr in
  match (if disable
         then match os_Create with
              | Some err => inr err
              | None => inl DevNull
              end
         else inl Stdout) with
  | inr err => (None, Some err)
  | inl consoleLogs =>
      (Some (mkSugaredLogger [mkCore consoleErrors errorPriority;
                              mkCore consoleLogs (logPriority debug)]
                             debug),
       None)
  end.

(** The package variables. *)
Record Globals : Type := mkGlobals {
  Logger : option SugaredLogger;
  debugOption : bool
}.

Definition InitLogger (os_Create : option error) (debug disable : bool) (g : Globals) :
    option error * Globals :=
  let g1 := mkGlobals (Logger g) debug in
  let made := NewLogger os_Create debug disable in
  let g2 := mkGlobals (fst made) (debugOption g1) in
  match snd made with
  | Some err => (Some (xerrors_Errorf "error in new logger: %w" (Some err)), g2)
  | None => (None, g2)
  end.

(** Where an entry of level [lvl] ends up: a tee hands it to each of its
    cores, and a core writes it when its enabler accepts the level. *)
Definition written (l : SugaredLogger) (lvl : Level) : list WriteSyncer :=
  core_ws <$> List.filter (fun c => core_enab c lvl) (cores l).

End log.

(** ** The mark of an update in progress *)

(** [p], entered with [k] raises of the counter of [d] not yet undone, never
    lowers that counter without a raise to undo, never raises it above one
    and never panics; where it returns [a] with [k'] raises not yet undone,
    [Q a k'] holds.  A [Done] that finds the counter at zero is not followed
    up: that is the step this rules out. *)
Fixpoint brackets (d : loc) {A : Type} (p : prog A) (k : nat) (Q : A -> nat -> Prop) : Prop :=
  match p with
  | Ret a => Q a k
  | Panic => False
  | Act e c =>
      forall x,
        match event_of e x with
        | EvWgAdd wg delta =>
            if Nat.eqb wg d then k + delta <= 1 /\ brackets d (c x) (k + delta) Q
            else brackets d (c x) k Q
        | EvWgDone wg ok =>
            if Nat.eqb wg d
            then (if ok then exists k', k = S k' /\ brackets d (c x) k' Q else True)
            else brackets d (c x) k Q
        | _ => brackets d (c x) k Q
        end
  end.

(** The waits on a wait group other than [wg]. *)
Definition waits_elsewhere (wg : loc) (e : event) : bool :=
  match e with
  | EvWgWait wg' => negb (Nat.eqb wg' wg)
  | _ => false
  end.


(** * Proofs *)

(** ** Programs run alone *)

Lemma run_bind env {A B : Type} (p : prog A) (f : A -> prog B) (w : World) :
  run env (bind p f) w = seq_result (run env p w) (fun a w' => run env (f a) w').
Proof.
  revert w. induction p as [a | | X e k IH]; intros w; cbn [bind run].
  - unfold seq_result. cbn. by destruct (run env (f a) w).
  - reflexivity.
  - destruct (exec env e w) as [[x w']|]; [|reflexivity].
    rewrite IH. unfold seq_result. cbn.
    by destruct (outcomeOf (run env (k x) w')).
Qed.

Lemma updateLast_nil (time : Z) (onlyDBAttempt : bool) :
  updateLastDBUpdatePrometheus None time onlyDBAttempt = Ret (Some gauge_nil_error).
Proof. reflexivity. Qed.

Lemma updateLast_some (g : loc) (time : Z) (onlyDBAttempt : bool) :
  updateLastDBUpdatePrometheus (Some g) time onlyDBAttempt
  = Act (AGaugeSet g (if onlyDBAttempt then "last_db_update_attempt" else "last_db_update")
           time)
        (fun _ => Ret None).
Proof. by destruct onlyDBAttempt. Qed.

Lemma update_nil (wk : dbWorker) (appVersion cacheDir : string) (dbUpdateWg requestWg : loc) :
  update wk appVersion cacheDir dbUpdateWg requestWg None
  = Act ANow (fun _ => Ret (Some (wrapError "%w" gauge_nil_error))).
Proof. reflexivity. Qed.

Lemma prefix_slash (d rest : string) : String.prefix (d +:+ "/") (d +:+ "/" +:+ rest) = true.
Proof.
  induction d as [|c d IH].
  - cbv [String.append]. cbn. by destruct rest.
  - change (String c d +:+ "/") with (String c (d +:+ "/")).
    change (String c d +:+ "/" +:+ rest) with (String c (d +:+ "/" +:+ rest)).
    cbn [String.prefix].
    destruct (Ascii.ascii_dec c c) as [_|Hne]; [exact IH | by destruct Hne].
Qed.

Lemma under_db_Path (dir : string) : under dir (db_Path dir) = true.
Proof.
  unfold under, db_Path.
  change (dir +:+ "/db/trivy.db") with (dir +:+ "/" +:+ "db/trivy.db").
  rewrite prefix_slash. apply orb_true_r.
Qed.

(** Symbolic execution of [run] in a hypothesis: unfold the program, case on
    each answer of the environment as it is reached. *)
Ltac sym_unfold0 H :=
  cbn [run bind defer call exec event_of outcomeOf worldOf eventsOf fst snd
       update hotUpdate GaugeVec_With_Set initializeMetricGauge
       time_Now_Unix Logger_Debug Logger_Info Logger_Errorf ioutil_TempDir os_RemoveAll
       db_Close db_Init utils_CopyFile WaitGroup_Add WaitGroup_Wait WaitGroup_Done
       xerrors_Errorf dbClient newDBWorker negb CopyFile] in H.

Ltac sym_unfold H :=
  sym_unfold0 H; rewrite ?updateLast_nil, ?updateLast_some in H; unfold CopyFile in H;
  sym_unfold0 H.

Ltac sym_case H :=
  match type of H with
  | context [Download ?c ?d ?q ?w] => destruct (Download c d q w) as [? ?] eqn:?
  | context [NeedsUpdate ?c ?v ?f ?s ?w] => destruct (NeedsUpdate c v f s w) as [? ?] eqn:?
  | context [match ?x with _ => _ end] =>
      lazymatch x with
      | context [match _ with _ => _ end] => fail
      | _ => destruct x eqn:?
      end
  end.

Ltac sym_exec H := sym_unfold H; repeat (sym_case H; sym_unfold H).

(** ** Projections of a state built by the updates of an execution *)

Lemma waitGroups_setWaitGroups f w : waitGroups (setWaitGroups f w) = f (waitGroups w).
Proof. reflexivity. Qed.

Lemma gauges_setWaitGroups f w : gauges (setWaitGroups f w) = gauges w.
Proof. reflexivity. Qed.

Lemma files_setWaitGroups f w : files (setWaitGroups f w) = files w.
Proof. reflexivity. Qed.

Lemma dbHandle_setWaitGroups f w : dbHandle (setWaitGroups f w) = dbHandle w.
Proof. reflexivity. Qed.

Lemma clockReads_setWaitGroups f w : clockReads (setWaitGroups f w) = clockReads w.
Proof. reflexivity. Qed.

Lemma waitGroups_setGauges f w : waitGroups (setGauges f w) = waitGroups w.
Proof. reflexivity. Qed.

Lemma gauges_setGauges f w : gauges (setGauges f w) = f (gauges w).
Proof. reflexivity. Qed.

Lemma files_setGauges f w : files (setGauges f w) = files w.
Proof. reflexivity. Qed.

Lemma dbHandle_setGauges f w : dbHandle (setGauges f w) = dbHandle w.
Proof. reflexivity. Qed.

Lemma clockReads_setGauges f w : clockReads (setGauges f w) = clockReads w.
Proof. reflexivity. Qed.

Lemma waitGroups_setFiles f w : waitGroups (setFiles f w) = waitGroups w.
Proof. reflexivity. Qed.

Lemma gauges_setFiles f w : gauges (setFiles f w) = gauges w.
Proof. reflexivity. Qed.

Lemma files_setFiles f w : files (setFiles f w) = f (files w).
Proof. reflexivity. Qed.

Lemma dbHandle_setFiles f w : dbHandle (setFiles f w) = dbHandle w.
Proof. reflexivity. Qed.

Lemma clockReads_setFiles f w : clockReads (setFiles f w) = clockReads w.
Proof. reflexivity. Qed.

Lemma waitGroups_setDbHandle h w : waitGroups (setDbHandle h w) = waitGroups w.
Proof. reflexivity. Qed.

Lemma gauges_setDbHandle h w : gauges (setDbHandle h w) = gauges w.
Proof. reflexivity. Qed.

Lemma files_setDbHandle h w : files (setDbHandle h w) = files w.
Proof. reflexivity. Qed.

Lemma dbHandle_setDbHandle h w : dbHandle (setDbHandle h w) = h.
Proof. reflexivity. Qed.

Lemma clockReads_setDbHandle h w : clockReads (setDbHandle h w) = clockReads w.
Proof. reflexivity. Qed.

Lemma waitGroups_tickClock w : waitGroups (tickClock w) = waitGroups w.
Proof. reflexivity. Qed.

Lemma gauges_tickClock w : gauges (tickClock w) = gauges w.
Proof. reflexivity. Qed.

Lemma files_tickClock w : files (tickClock w) = files w.
Proof. reflexivity. Qed.

Lemma dbHandle_tickClock w : dbHandle (tickClock w) = dbHandle w.
Proof. reflexivity. Qed.

Lemma clockReads_tickClock w : clockReads (tickClock w) = S (clockReads w).
Proof. reflexivity. Qed.

Create Rewrite HintDb world.
#[global] Hint Rewrite waitGroups_setWaitGroups gauges_setWaitGroups files_setWaitGroups dbHandle_setWaitGroups clockReads_setWaitGroups waitGroups_setGauges gauges_setGauges files_setGauges dbHandle_setGauges clockReads_setGauges waitGroups_setFiles gauges_setFiles files_setFiles
  dbHandle_setFiles clockReads_setFiles waitGroups_setDbHandle gauges_setDbHandle files_setDbHandle dbHandle_setDbHandle clockReads_setDbHandle waitGroups_tickClock gauges_tickClock files_tickClock dbHandle_tickClock clockReads_tickClock : world.

Lemma sample_setWaitGroups f w g label : sample (setWaitGroups f w) g label = sample w g label.
Proof. reflexivity. Qed.

Lemma sample_setFiles f w g label : sample (setFiles f w) g label = sample w g label.
Proof. reflexivity. Qed.

Lemma sample_setDbHandle h w g label : sample (setDbHandle h w) g label = sample w g label.
Proof. reflexivity. Qed.

Lemma sample_tickClock w g label : sample (tickClock w) g label = sample w g label.
Proof. reflexivity. Qed.

Lemma wgCount_setGauges f w wg : wgCount (setGauges f w) wg = wgCount w wg.
Proof. reflexivity. Qed.

Lemma wgCount_setFiles f w wg : wgCount (setFiles f w) wg = wgCount w wg.
Proof. reflexivity. Qed.

Lemma wgCount_setDbHandle h w wg : wgCount (setDbHandle h w) wg = wgCount w wg.
Proof. reflexivity. Qed.

Lemma wgCount_tickClock w wg : wgCount (tickClock w) wg = wgCount w wg.
Proof. reflexivity. Qed.

Lemma wgCount_insert_eq w wg n : wgCount (setWaitGroups (insert wg n) w) wg = n.
Proof. unfold wgCount. cbn. by rewrite lookup_insert_eq. Qed.

Lemma wgCount_insert_ne w wg wg' n :
  wg <> wg' -> wgCount (setWaitGroups (insert wg n) w) wg' = wgCount w wg'.
Proof. intros Hne. unfold wgCount. cbn. by rewrite lookup_insert_ne. Qed.

#[global] Hint Rewrite sample_setWaitGroups sample_setFiles sample_setDbHandle sample_tickClock
  wgCount_setGauges wgCount_setFiles wgCount_setDbHandle wgCount_tickClock
  wgCount_insert_eq : world.

Ltac world_simpl := unfold RemoveAll; autorewrite with world.

Ltac world_simpl_in H := unfold RemoveAll in H; autorewrite with world in H.

(** Case analysis on the membership of an event in an explicit trace. *)
Ltac in_cases H :=
  cbn [In eventsOf] in H;
  repeat match type of H with
         | _ \/ _ => destruct H as [H|H]; [try discriminate H|]
         | False => destruct H
         end.

Lemma sample_setGauges_eq (w : World) (g : loc) (label : string) (v : Z) :
  sample (setGauges (fun gs => <[g := <[label := v]> (default ∅ (gs !! g))]> gs) w) g label
  = Some v.
Proof.
  unfold sample, setGauges. cbn [gauges].
  rewrite lookup_insert_eq. cbn. by rewrite lookup_insert_eq.
Qed.

Lemma sample_setGauges_ne (w : World) (g : loc) (label label' : string) (v : Z) :
  label <> label' ->
  sample (setGauges (fun gs => <[g := <[label := v]> (default ∅ (gs !! g))]> gs) w) g label'
  = sample w g label'.
Proof.
  intros Hne. unfold sample, setGauges. cbn [gauges].
  rewrite lookup_insert_eq. cbn. rewrite lookup_insert_ne by done.
  by destruct (gauges w !! g).
Qed.

(** ** The update worker, run alone *)

Lemma Is_refl (e : error) : Is e e.
Proof. destruct e; cbn; auto. Qed.

(** C6. Recording on a nil gauge returns the error "Prometheus gauge found to
    be nil": it neither panics nor returns nil, and it leaves the state alone.
    Its callers return an error in turn instead of going on: [update] wraps the
    gauge error before the client is asked anything, and
    [initializeMetricGauge] wraps it unless reading the metadata has failed
    already, in which case it returns that failure. *)
Theorem nil_gauge_fails_loudly env w time onlyDBAttempt wk appVersion cacheDir
    dbUpdateWg requestWg :
  run env (updateLastDBUpdatePrometheus None time onlyDBAttempt) w
    = mkResult (Returned (Some gauge_nil_error)) w []
  /\ Error gauge_nil_error = "Prometheus gauge found to be nil"
  /\ (exists err,
        outcomeOf (run env (update wk appVersion cacheDir dbUpdateWg requestWg None) w)
          = Returned (Some err)
        /\ Is err gauge_nil_error
        /\ calls is_NeedsUpdate
             (eventsOf (run env (update wk appVersion cacheDir dbUpdateWg requestWg None) w))
           = 0)
  /\ (exists err,
        outcomeOf (run env (initializeMetricGauge None cacheDir) w) = Returned (Some err)
        /\ match Metadata_Get env cacheDir w with
           | inl _ => Is err gauge_nil_error
           | inr e => Is err e
           end).
Proof.
  split; [reflexivity|]. split; [reflexivity|]. split.
  - exists (wrapError "%w" gauge_nil_error). cbn. auto.
  - cbn [initializeMetricGauge run bind call exec].
    destruct (Metadata_Get env cacheDir w) as [md|e]; cbn; eexists; (split; [reflexivity|]);
      cbn; auto using Is_refl.
Qed.

(** C5, as stated, fails: a cycle handed a nil gauge reads the clock, records
    no sample and returns. *)
Lemma attempt_not_recorded_on_nil_gauge :
  ~ attempt_recorded_first (Scenario.env None None) (newDBWorker Scenario.client)
      "dev" "/cache" 1 0 None Scenario.world.
Proof.
  intros (g & rest & H). cbn in H. discriminate H.
Qed.

(** C5, amended. A cycle handed a gauge that was constructed opens by reading
    the clock and setting the "last_db_update_attempt" sample to that reading;
    only then is the client asked whether an update is needed.  Whatever
    happens afterwards, the sample still holds that reading at the end. *)
Theorem attempt_recorded_when_gauge_set env wk appVersion cacheDir dbUpdateWg requestWg g w :
  let r := run env (update wk appVersion cacheDir dbUpdateWg requestWg (Some g)) w in
  let now := clock env (clockReads w) in
  (exists answer rest,
     eventsOf r = EvNow now :: EvGaugeSet g "last_db_update_attempt" now
                    :: EvDebug "Check for DB update..."
                    :: EvNeedsUpdate appVersion false false answer
                    :: rest)
  /\ sample (worldOf r) g "last_db_update_attempt" = Some now.
Proof.
  intros r now. remember r as r' eqn:Hr. unfold r in Hr. clear r.
  sym_exec Hr.
  all: subst r'; cbn [eventsOf worldOf outcomeOf]; (split; [by do 2 eexists|]).
  all: world_simpl; rewrite ?sample_setGauges_ne by done; world_simpl.
  all: apply sample_setGauges_eq.
Qed.

(** A failed decision stops the cycle: it returns the error built from the
    message "failed to check if db needs an update" alone; nothing was
    downloaded, no step of the swap was run, and the wait groups, the files
    and the database handle are as before. *)
Lemma decision_failure_stops env wk appVersion cacheDir dbUpdateWg requestWg gaugeMetric w
    v forceFull skip b e :
  let r := run env (update wk appVersion cacheDir dbUpdateWg requestWg gaugeMetric) w in
  In (EvNeedsUpdate v forceFull skip (b, Some e)) (eventsOf r) ->
  outcomeOf r = Returned (Some (noWrapError "failed to check if db needs an update"))
  /\ strings_Contains (Error (noWrapError "failed to check if db needs an update"))
       "failed to check if db needs an update" = true
  /\ calls is_Download (eventsOf r) = 0
  /\ calls is_gate (eventsOf r) = 0
  /\ calls is_swap (eventsOf r) = 0
  /\ waitGroups (worldOf r) = waitGroups w
  /\ files (worldOf r) = files w
  /\ dbHandle (worldOf r) = dbHandle w.
Proof.
  intros r. remember r as r' eqn:Hr. unfold r in Hr. clear r.
  destruct gaugeMetric as [g|]; sym_exec Hr.
  all: subst r'; cbn [eventsOf worldOf outcomeOf]; intros Hin; in_cases Hin.
  all: try discriminate Hin.
  all: cbn; auto 10.
Qed.

(** C9. When the client fails with [e] to say whether an update is needed,
    the cycle stops without a download or a swap and leaves the gate, the
    files and the database handle alone, but the error it returns does not
    wrap [e]: [update] builds it with [xerrors.Errorf] from a format without
    [%w] and without operand.  It unwraps to nil, its chain holds no error
    but itself, and its text is the fixed message whatever [e] says: the
    cause is dropped, where the other error paths of [update] and all those
    of [hotUpdate] wrap theirs with [%w]. *)
Theorem decision_failure_drops_cause env wk appVersion cacheDir dbUpdateWg requestWg
    gaugeMetric w v forceFull skip b e :
  let r := run env (update wk appVersion cacheDir dbUpdateWg requestWg gaugeMetric) w in
  In (EvNeedsUpdate v forceFull skip (b, Some e)) (eventsOf r) ->
  exists err,
    outcomeOf r = Returned (Some err)
    /\ Unwrap err = None
    /\ (forall target, Is err target -> target = err)
    /\ (Is err e -> e = xerrors_Errorf "failed to check if db needs an update" None)
    /\ Error err = "failed to check if db needs an update"
    /\ strings_Contains (Error err) "failed to check if db needs an update" = true
    /\ calls is_Download (eventsOf r) = 0
    /\ calls is_gate (eventsOf r) = 0
    /\ calls is_swap (eventsOf r) = 0
    /\ waitGroups (worldOf r) = waitGroups w
    /\ files (worldOf r) = files w
    /\ dbHandle (worldOf r) = dbHandle w.
Proof.
  intros r Hin.
  destruct (decision_failure_stops env wk appVersion cacheDir dbUpdateWg requestWg
              gaugeMetric w v forceFull skip b e Hin) as (Hout & _ & Hrest).
  exists (noWrapError "failed to check if db needs an update").
  split; [exact Hout|]. split; [reflexivity|].
  split; [by intros target [<-|[]]|].
  split; [by intros [<-|[]]|].
  split; [reflexivity|]. split; [reflexivity | exact Hrest].
Qed.

Lemma updateLoop_nil env wk c dbUpdateWg requestWg n w :
  let r := run env (updateLoop n wk c dbUpdateWg requestWg None) w in
  outcomeOf r = Returned tt /\
  logged_errors (eventsOf r) = replicate n (wrapError "%w" gauge_nil_error) /\
  gauges (worldOf r) = gauges w /\
  no_update_activity w r.
Proof.
  revert w. induction n as [|n IH]; intros w.
  - cbn. unfold no_update_activity. cbn. tauto.
  - cbn [updateLoop]. rewrite update_nil. cbn [bind run exec Logger_Errorf call].
    specialize (IH (tickClock w)). cbn zeta in IH.
    destruct (run env (updateLoop n wk c dbUpdateWg requestWg None) (tickClock w))
      as [o w' evs].
    unfold no_update_activity in *. cbn in *. 
    destruct IH as (-> & -> & -> & IH). tauto.
Qed.

(** C10. With a nil gauge a cycle returns the gauge error at its first step:
    only the clock is read.  Hence every round of the loop logs that error and
    does nothing else, the client is never asked whether an update is needed,
    and nothing is downloaded or swapped.  That is the state the background
    goroutine is in once seeding the gauge at startup has failed, whatever
    the reason of the failure. *)
Theorem nil_gauge_blocks_updates env wk c dbUpdateWg requestWg n w :
  run env (update wk (AppVersion c) (CacheDir c) dbUpdateWg requestWg None) w
    = mkResult (Returned (Some (wrapError "%w" gauge_nil_error))) (tickClock w)
        [EvNow (clock env (clockReads w))]
  /\ (let r := run env (updateLoop n wk c dbUpdateWg requestWg None) w in
      outcomeOf r = Returned tt /\
      logged_errors (eventsOf r) = replicate n (wrapError "%w" gauge_nil_error) /\
      gauges (worldOf r) = gauges w /\
      no_update_activity w r)
  /\ (forall e,
        outcomeOf (run env (initializeMetricGauge (GaugeMetric c) (CacheDir c)) w)
          = Returned (Some e) ->
        let r := run env (updateGoroutine n wk c dbUpdateWg requestWg) w in
        outcomeOf r = Returned tt /\
        logged_errors (eventsOf r) = e :: replicate n (wrapError "%w" gauge_nil_error) /\
        gauges (worldOf r) = gauges w /\
        no_update_activity w r).
Proof.
  split; [reflexivity|]. split; [apply updateLoop_nil|].
  intros e He. unfold updateGoroutine. rewrite run_bind.
  remember (run env (initializeMetricGauge (GaugeMetric c) (CacheDir c)) w) as r0 eqn:Hr0.
  destruct (GaugeMetric c) as [g|]; sym_exec Hr0; subst r0; cbn in He; try congruence.
  all: injection He as <-.
  all: unfold seq_result; cbn [outcomeOf worldOf eventsOf].
  all: cbn [bind run exec Logger_Errorf call].
  all: pose proof (updateLoop_nil env wk c dbUpdateWg requestWg n w) as IH; cbn zeta in IH.
  all: destruct (run env (updateLoop n wk c dbUpdateWg requestWg None) w) as [o w' evs].
  all: unfold no_update_activity in *; cbn in *.
  all: destruct IH as (-> & -> & -> & IH); tauto.
Qed.

Lemma staging_removed (d : string) (m : gmap string string) (p : string) :
  under d p = true -> filter (fun kv : string * string => under d kv.1 = false) m !! p = None.
Proof.
  intros Hp. apply map_lookup_filter_None. right. intros x _. cbn. by rewrite Hp.
Qed.

Lemma files_kept (d : string) (m : gmap string string) :
  (forall p, under d p = true -> m !! p = None) ->
  filter (fun kv : string * string => under d kv.1 = false) m = m.
Proof.
  intros Hnew. apply map_filter_id. intros p x Hpx. cbn.
  destruct (under d p) eqn:Hu; [|done]. rewrite (Hnew p Hu) in Hpx. discriminate.
Qed.

Lemma files_restored (d : string) (m : gmap string string) (bytes : string) :
  (forall p, under d p = true -> m !! p = None) ->
  filter (fun kv : string * string => under d kv.1 = false) (<[db_Path d := bytes]> m) = m.
Proof.
  intros Hnew.
  rewrite map_filter_insert_False; [| cbn; by rewrite under_db_Path].
  rewrite delete_id; [by apply files_kept|].
  apply Hnew, under_db_Path.
Qed.

(** Membership of an event in an explicit trace. *)
Ltac in_list := cbn [In]; repeat first [left; reflexivity | right].

(** C7. A cycle that updates and succeeds has set both samples of the gauge:
    "last_db_update_attempt" to the reading of the clock at its start and
    "last_db_update" to the reading taken after the swap.  A cycle in which the
    client answers that no update is needed returns nil; it never called
    [Download] nor touched a wait group, and the gauge differs from before
    in the "last_db_update_attempt" sample only. *)
Theorem metric_outcomes env wk appVersion cacheDir dbUpdateWg requestWg gaugeMetric w
    v forceFull skip :
  let r := run env (update wk appVersion cacheDir dbUpdateWg requestWg gaugeMetric) w in
  let now := clock env (clockReads w) in
  let later := clock env (S (clockReads w)) in
  (outcomeOf r = Returned None ->
   In (EvNeedsUpdate v forceFull skip (true, None)) (eventsOf r) ->
   exists g,
     gaugeMetric = Some g
     /\ In (EvGaugeSet g "last_db_update_attempt" now) (eventsOf r)
     /\ In (EvGaugeSet g "last_db_update" later) (eventsOf r)
     /\ sample (worldOf r) g "last_db_update_attempt" = Some now
     /\ sample (worldOf r) g "last_db_update" = Some later)
  /\ (In (EvNeedsUpdate v forceFull skip (false, None)) (eventsOf r) ->
      outcomeOf r = Returned None
      /\ calls is_Download (eventsOf r) = 0
      /\ calls is_gate (eventsOf r) = 0
      /\ waitGroups (worldOf r) = waitGroups w
      /\ exists g,
           gaugeMetric = Some g
           /\ calls (is_GaugeSet "last_db_update") (eventsOf r) = 0
           /\ gauges (worldOf r)
              = <[g := <["last_db_update_attempt" := now]> (default ∅ (gauges w !! g))]>
                  (gauges w)
           /\ sample (worldOf r) g "last_db_update_attempt" = Some now
           /\ sample (worldOf r) g "last_db_update" = sample w g "last_db_update").
Proof.
  intros r now later. remember r as r' eqn:Hr. unfold r in Hr. clear r.
  destruct gaugeMetric as [g|]; sym_exec Hr.
  all: subst r'; cbn [eventsOf worldOf outcomeOf];
    (split; [intros Hout Hin; try discriminate Hout | intros Hin]).
  all: in_cases Hin; try discriminate Hin.
  all: simplify_eq.
  all: try match goal with H : negb _ = _ |- _ => cbn in H; discriminate H end.
  all: repeat first [split | eexists].
  all: world_simpl;
    repeat first [rewrite sample_setGauges_eq
                 | rewrite sample_setGauges_ne by done
                 | progress world_simpl].
  all: try reflexivity.
  all: in_list.
Qed.

(** C4. When the client says an update is needed and [Download] fails, the
    cycle returns the error "failed DB hot update".  No wait group was touched
    and no step of the swap was run.  With a staging directory that is new,
    the files are those from before the cycle, the live database among them:
    the staging directory and what the download left in it are gone.  The
    attempt sample had been recorded before the download began. *)
Theorem download_failure_aborts env wk appVersion cacheDir dbUpdateWg requestWg gaugeMetric w
    v forceFull skip dir quiet e :
  is_new_dir dir w ->
  let r := run env (update wk appVersion cacheDir dbUpdateWg requestWg gaugeMetric) w in
  let now := clock env (clockReads w) in
  In (EvNeedsUpdate v forceFull skip (true, None)) (eventsOf r) ->
  In (EvDownload dir quiet (Some e)) (eventsOf r) ->
  outcomeOf r = Returned (Some (noWrapError "failed DB hot update"))
  /\ strings_Contains (Error (noWrapError "failed DB hot update")) "failed DB hot update"
     = true
  /\ calls is_gate (eventsOf r) = 0
  /\ waitGroups (worldOf r) = waitGroups w
  /\ calls is_swap (eventsOf r) = 0
  /\ dbHandle (worldOf r) = dbHandle w
  /\ files (worldOf r) = files w
  /\ In (EvRemoveAll dir) (eventsOf r)
  /\ (forall p, under dir p = true -> files (worldOf r) !! p = None)
  /\ exists g pre post,
       gaugeMetric = Some g
       /\ eventsOf r = (pre ++ EvDownload dir quiet (Some e) :: post)%list
       /\ In (EvGaugeSet g "last_db_update_attempt" now) pre
       /\ sample (worldOf r) g "last_db_update_attempt" = Some now.
Proof.
  intros Hnew r now. remember r as r' eqn:Hr. unfold r in Hr. clear r.
  destruct gaugeMetric as [g|]; sym_exec Hr.
  all: subst r'; cbn [eventsOf worldOf outcomeOf]; intros Hup Hin.
  all: in_cases Hin; try discriminate Hin.
  all: simplify_eq.
  all: unfold is_new_dir in Hnew.
  all: world_simpl.
  all: repeat (split; [reflexivity|]).
  all: split; [first [by apply files_restored | by apply files_kept]|].
  all: split; [in_list|].
  all: split; [intros p Hp; by apply staging_removed|].
  all: exists g,
         [EvNow (clock env (clockReads w));
          EvGaugeSet g "last_db_update_attempt" (clock env (clockReads w));
          EvDebug "Check for DB update...";
          EvNeedsUpdate appVersion false false (b, None);
          EvInfo "Updating DB..."; EvTempDir (inl dir)],
         [EvRemoveAll dir].
  all: repeat (split; [reflexivity|]).
  all: split; [in_list|].
  all: apply sample_setGauges_eq.
Qed.

(** Counting the operations on a wait group in an explicit trace. *)
Ltac count_wg :=
  cbn [total added released sum_list_with calls List.filter is_gate
       is_swap is_Download is_NeedsUpdate length];
  rewrite ?Nat.eqb_refl; try reflexivity.

(** C2. Every execution of [hotUpdate] that marks the update in progress and
    comes to an end clears the mark: the trace holds exactly one [Add] and one
    successful [Done] on [dbUpdateWg], the [Done] after the [Add], whichever of
    the steps in between has failed; the counter is back at the value it had,
    and the end is a return, not a panic. *)
Theorem gate_always_released env wk cacheDir dbUpdateWg requestWg w :
  let r := run env (hotUpdate wk cacheDir dbUpdateWg requestWg) w in
  outcomeOf r <> Blocked ->
  In (EvWgAdd dbUpdateWg 1) (eventsOf r) ->
  (exists pre post,
     eventsOf r = (pre ++ EvWgAdd dbUpdateWg 1 :: post)%list
     /\ In (EvWgDone dbUpdateWg true) post)
  /\ total (added dbUpdateWg) (eventsOf r) = 1
  /\ total (released dbUpdateWg) (eventsOf r) = 1
  /\ wgCount (worldOf r) dbUpdateWg = wgCount w dbUpdateWg
  /\ exists err, outcomeOf r = Returned err.
Proof.
  intros r. remember r as r' eqn:Hr. unfold r in Hr. clear r.
  sym_exec Hr.
  all: subst r'; cbn [eventsOf worldOf outcomeOf]; intros Hout Hin.
  all: try (in_cases Hin; discriminate Hin).
  all: try (by destruct Hout).
  all: clear Hin Hout.
  all: repeat match goal with
              | H : wgCount _ _ = _ |- _ => world_simpl_in H; revert H
              end; intros.
  all: try lia.
  all: split; [eexists [_; _; _], _; split; [reflexivity|in_list]|].
  all: split; [count_wg|]. 
  all: split; [count_wg|]. 
  all: split; [world_simpl; lia | by eexists].
Qed.

Lemma files_outside (d : string) (m : gmap string string) (p : string) :
  under d p = false ->
  filter (fun kv : string * string => under d kv.1 = false) m !! p = m !! p.
Proof.
  intros Hp. destruct (m !! p) as [x|] eqn:Hx.
  - by apply map_lookup_filter_Some_2.
  - apply map_lookup_filter_None. by left.
Qed.

(** C3. Once the download has succeeded, the steps of the swap that
    [hotUpdate] runs form an initial part of: mark the update in progress,
    wait for the drain, close the handle, replace the live file by the staged
    one, persist the metadata in the live cache directory, reopen the handle;
    the mark is always among them.  When [hotUpdate] returns nil they were all
    run, each with success, in this order, followed by the release of the
    mark, and the handle is open on the live path.  With a cache directory
    that is not inside the staging directory, the live file at the end is the
    whole staged file when the copy succeeded and the file from before
    otherwise. *)
Theorem hot_swap_in_order env wk cacheDir dbUpdateWg requestWg w tmpDir quiet :
  let r := run env (hotUpdate wk cacheDir dbUpdateWg requestWg) w in
  In (EvDownload tmpDir quiet None) (eventsOf r) ->
  (exists k, 0 < k
             /\ swap_steps dbUpdateWg requestWg (eventsOf r) = take k hot_swap_order)
  /\ (outcomeOf r = Returned None ->
      List.filter (fun e => is_gate e || is_swap e) (eventsOf r)
      = [EvWgAdd dbUpdateWg 1; EvWgWait requestWg; EvDbClose None;
         EvCopyFile (db_Path tmpDir) (db_Path cacheDir) None;
         EvUpdateMetadata cacheDir None; EvDbInit cacheDir None;
         EvWgDone dbUpdateWg true]
      /\ replaced (eventsOf r) = true
      /\ dbHandle (worldOf r) = Some (db_Path cacheDir))
  /\ (under tmpDir (db_Path cacheDir) = false ->
      files (worldOf r) !! db_Path cacheDir
      = if replaced (eventsOf r) then staged env wk tmpDir w
        else files w !! db_Path cacheDir).
Proof.
  intros r. remember r as r' eqn:Hr. unfold r in Hr. clear r.
  sym_exec Hr.
  all: subst r'; cbn [eventsOf worldOf outcomeOf]; intros Hin.
  all: in_cases Hin; try discriminate Hin.
  all: simplify_eq.
  all: repeat match goal with
              | H : wgCount _ _ = _ |- _ => world_simpl_in H; revert H
              | H : files _ !! _ = _ |- _ => world_simpl_in H; revert H
              end; intros.
  all: try lia.
  all: assert (under tmpDir (db_Path cacheDir) = false -> db_Path tmpDir <> db_Path cacheDir)
    as Hdiff by (intros Hu Heq; rewrite <- Heq, under_db_Path in Hu; discriminate Hu).
  all: split;
    [unfold swap_steps; cbn [omap list_omap swap_step_of]; rewrite ?Nat.eqb_refl;
     first [exists 1; split; [lia|reflexivity] | exists 2; split; [lia|reflexivity]
           | exists 3; split; [lia|reflexivity] | exists 4; split; [lia|reflexivity]
           | exists 5; split; [lia|reflexivity] | exists 6; split; [lia|reflexivity]]
    |].
  all: split; [intros Hout; try discriminate Hout; by repeat split|].
  all: intros Hu; specialize (Hdiff Hu); world_simpl; rewrite ?files_outside by done;
    cbn [replaced existsb orb]; unfold staged; cbn [run call exec worldOf].
  all: repeat match goal with H : Download _ _ _ _ = _ |- _ => rewrite H; clear H end;
    cbn [fst snd]; world_simpl.
  all: try match goal with
             | H : ?m !! ?k = Some _ |- context [?m !! ?k] => rewrite H
             end.
  all: rewrite ?lookup_insert_eq; rewrite ?lookup_insert_ne by done; reflexivity.
Qed.

(** ** Goroutines *)

Lemma schedule_reachable env (sch : list nat) (s s' : cstate) :
  schedule env sch s = Some s' -> reachable env s s'.
Proof.
  revert s. induction sch as [|i sch IH]; intros s; cbn.
  - intros [= <-]. apply rtc_refl.
  - destruct (fire env i s) as [s1|] eqn:Hfire; [|discriminate].
    intros Hrest. eapply rtc_l; [by exists i | by apply IH].
Qed.

Lemma fire_inv env (i : nat) (s s' : cstate) :
  fire env i s = Some s' ->
  exists (X : Type) (e : action X) (k : X -> prog unit) (x : X) (w' : World),
    cs_pool s !! i = Some (Act e k)
    /\ exec env e (cs_world s) = Some (x, w')
    /\ s' = mkCstate w' (<[i := k x]> (cs_pool s)) (cs_trace s ++ [(i, event_of e x)]).
Proof.
  unfold fire. destruct (cs_pool s !! i) as [[a| |X e k]|]; try discriminate.
  destruct (exec env e (cs_world s)) as [[x w']|] eqn:Hexec; [|discriminate].
  intros [= <-]. by exists X, e, k, x, w'.
Qed.

(** An operation moves the counter of a wait group by what its event says. *)
Lemma exec_balance env {X : Type} (e : action X) (w w' : World) (x : X) (wg : loc) :
  exec env e w = Some (x, w') ->
  wgCount w' wg + released wg (event_of e x) = wgCount w wg + added wg (event_of e x).
Proof.
  destruct e; cbn [exec event_of added released]; try (intros [= <- <-]; world_simpl; lia).
  - intros [= <- <-]. destruct (Download c dir quiet w).1; world_simpl; lia.
  - intros [= <- <-]. destruct (Nat.eqb_spec wg0 wg) as [->|Hne].
    + rewrite wgCount_insert_eq. lia.
    + rewrite wgCount_insert_ne by done. lia.
  - destruct (wgCount w wg0) as [|c] eqn:Hc; intros [= <- <-]; [lia|].
    destruct (Nat.eqb_spec wg0 wg) as [->|Hne].
    + rewrite wgCount_insert_eq. lia.
    + rewrite wgCount_insert_ne by done. lia.
  - destruct (wgCount w wg0); [|discriminate]. intros [= <- <-]. lia.
  - destruct (Close env w); intros [= <- <-]; world_simpl; lia.
  - unfold CopyFile. destruct (files w !! src); [destruct (CopyFile_fault env src dst w)|];
      intros [= <- <-]; world_simpl; lia.
  - destruct (Init env dir w); intros [= <- <-]; world_simpl; lia.
Qed.

Lemma total_app (f : event -> nat) (l1 l2 : list event) :
  total f (l1 ++ l2) = total f l1 + total f l2.
Proof. unfold total. apply sum_list_with_app. Qed.

Lemma thread_events_snoc (i j : nat) (tr : list (nat * event)) (ev : event) :
  thread_events i (tr ++ [(j, ev)])
  = if Nat.eqb j i then thread_events i tr ++ [ev] else thread_events i tr.
Proof.
  unfold thread_events. rewrite List.filter_app. cbn.
  destruct (Nat.eqb j i); cbn.
  - by rewrite fmap_app.
  - by rewrite app_nil_r.
Qed.

Lemma path_snoc {A X : Type} (p0 : prog A) (evs : list event) (e : action X)
    (k : X -> prog A) (x : X) :
  path p0 evs (Act e k) -> path p0 (evs ++ [event_of e x]) (k x).
Proof.
  revert p0. induction evs as [|ev evs IH]; intros p0; simpl.
  - intros Heq. subst p0. by exists x.
  - destruct p0 as [a| |Y e0 k0]; try done.
    intros (y & Hev & Hpath). exists y. split; [done|]. by apply IH.
Qed.

Lemma thread_events_In (i : nat) (tr : list (nat * event)) (ev : event) :
  In ev (thread_events i tr) -> In (i, ev) tr.
Proof.
  unfold thread_events. intros Hin.
  apply in_map_iff in Hin as ([j ev'] & Heq & Hin). cbn in Heq. subst ev'.
  apply List.filter_In in Hin as [Hin Hj]. cbn in Hj.
  apply Nat.eqb_eq in Hj. by subst j.
Qed.

Lemma sum_with_ext (f g : nat -> nat) (l : list nat) :
  (forall i, In i l -> f i = g i) -> sum_list_with f l = sum_list_with g l.
Proof.
  induction l as [|a l IH]; intros Hfg; [done|]. cbn [sum_list_with].
  rewrite (Hfg a) by (by left). rewrite IH; [done|]. intros i Hi. apply Hfg. by right.
Qed.



Lemma sum_bump (c j : nat) (g : nat -> nat) (a n : nat) :
  a <= j < a + n ->
  sum_list_with (fun i => (if Nat.eqb j i then c else 0) + g i) (seq a n)
  = c + sum_list_with g (seq a n).
Proof.
  revert a. induction n as [|n IH]; intros a Hj; [lia|]. cbn [seq sum_list_with].
  destruct (Nat.eqb_spec j a) as [->|Hne].
  - assert (sum_list_with (fun i => (if Nat.eqb a i then c else 0) + g i) (seq (S a) n)
            = sum_list_with g (seq (S a) n)) as ->; [|lia].
    apply sum_with_ext. intros i Hi. apply in_seq in Hi.
    destruct (Nat.eqb_spec a i); lia.
  - rewrite IH by lia. lia.
Qed.

(** The events of a trace, summed over the goroutines that left them. *)
Lemma total_by_thread (f : event -> nat) (n : nat) (tr : list (nat * event)) :
  (forall i ev, In (i, ev) tr -> i < n) ->
  total f (snd <$> tr)
  = sum_list_with (fun i => total f (thread_events i tr)) (seq 0 n).
Proof.
  induction tr as [|[j ev] tr IH]; intros Hbound.
  - cbn. induction (seq 0 n); [done|]. cbn. by rewrite <- IHl.
  - assert (j < n) as Hj by (apply (Hbound j ev); by left).
    rewrite fmap_cons. unfold total in *. cbn [sum_list_with snd].
    rewrite IH by (intros i e Hin; apply (Hbound i e); by right).
    rewrite <- (sum_bump (f ev) j _ 0 n) by lia.
    apply sum_with_ext. intros i _. unfold thread_events. cbn [List.filter fst].
    destruct (Nat.eqb j i); reflexivity.
Qed.

(** What holds of every state the goroutines reach from a state with an empty
    trace: no goroutine appears or disappears, each has left of its program
    what its own events say, and every counter is what the trace adds up to. *)
Lemma reachable_inv env (s0 s : cstate) :
  cs_trace s0 = [] ->
  reachable env s0 s ->
  length (cs_pool s) = length (cs_pool s0)
  /\ (forall i ev, In (i, ev) (cs_trace s) -> i < length (cs_pool s0))
  /\ (forall i p0, cs_pool s0 !! i = Some p0 ->
        exists p, cs_pool s !! i = Some p /\ path p0 (thread_events i (cs_trace s)) p)
  /\ (forall wg,
        wgCount (cs_world s) wg + total (released wg) (snd <$> cs_trace s)
        = wgCount (cs_world s0) wg + total (added wg) (snd <$> cs_trace s)).
Proof.
  intros Hempty. revert s. unfold reachable. apply rtc_ind_r; [|intros s s' Hreach Hstep IH].
  - rewrite Hempty. repeat split; try done.
    intros i p0 Hp0. exists p0. by split.
  - destruct IH as (Hlen & Hbound & Hpaths & Hbal). destruct Hstep as [i Hfire].
    apply fire_inv in Hfire as (X & e & k & x & w' & Hi & Hexec & ->).
    cbn [cs_world cs_pool cs_trace].
    assert (i < length (cs_pool s)) as Hilt by (by eapply lookup_lt_Some).
    split; [by rewrite length_insert|]. split; [|split].
    + intros j ev Hin. apply in_app_or in Hin as [Hin|[[= <- <-]|[]]]; [by eapply Hbound|lia].
    + intros j p0 Hp0. destruct (Hpaths j p0 Hp0) as (p & Hp & Hpath).
      rewrite thread_events_snoc. destruct (Nat.eqb_spec i j) as [->|Hne].
      * exists (k x). split; [by apply list_lookup_insert_eq|].
        rewrite Hi in Hp. injection Hp as <-. by apply path_snoc.
      * exists p. split; [by rewrite list_lookup_insert_ne|done].
    + intros wg. rewrite fmap_app, !total_app. cbn [fmap list_fmap snd total sum_list_with].
      pose proof (exec_balance env e _ _ x wg Hexec). specialize (Hbal wg).
      unfold total in *. lia.
Qed.

Lemma avoids_bind {A B : Type} (bad : event -> bool) (p : prog A) (f : A -> prog B) :
  avoids bad p -> (forall a, avoids bad (f a)) -> avoids bad (bind p f).
Proof.
  intros Hp Hf. induction p as [a | | X e k IH]; cbn [bind avoids] in *; [done..|].
  intros x. destruct (Hp x) as [Hev Hk]. split; [done|]. by apply IH.
Qed.


Lemma avoids_path {A : Type} (bad : event -> bool) (p p' : prog A) (evs : list event) :
  avoids bad p -> path p evs p' ->
  avoids bad p' /\ forall ev, In ev evs -> bad ev = false.
Proof.
  revert p. induction evs as [|ev evs IH]; intros p Hp; simpl.
  - intros ->. by split.
  - destruct p as [a | | X e k]; try done. intros (x & -> & Hpath).
    destruct (Hp x) as [Hev Hk]. destruct (IH (k x) Hk Hpath) as [Hp' Hevs].
    split; [done|]. intros ev [<-|Hin]; [done|by apply Hevs].
Qed.

Lemma total_zero (f : event -> nat) (evs : list event) :
  (forall ev, In ev evs -> f ev = 0) -> total f evs = 0.
Proof.
  unfold total. induction evs as [|ev evs IH]; intros Hz; [done|]. cbn [sum_list_with].
  rewrite (Hz ev) by (by left). rewrite IH; [done|]. intros e He. apply Hz. by right.
Qed.

Lemma moves_false (wg : loc) (ev : event) :
  moves wg ev = false -> added wg ev = 0 /\ released wg ev = 0.
Proof.
  destruct ev; cbn; try done.
  - by intros ->.
  - intros ->. by destruct ok.
Qed.









(** *** The state [ListenAndServe] starts from *)

Lemma wait_groups_differ (w : World) : dbUpdateWg_of w <> requestWg_of w.
Proof.
  unfold dbUpdateWg_of, requestWg_of, new_WaitGroup. cbn [fst snd].
  rewrite waitGroups_setWaitGroups. intros Heq.
  apply (is_fresh (dom (<[fresh (dom (waitGroups w)) := 0]> (waitGroups w)))).
  rewrite Heq at 1. rewrite dom_insert. set_solver.
Qed.

Lemma ListenAndServe_pool c wk n reqs w :
  cs_pool (ListenAndServe c wk n reqs w)
  = updateGoroutine n wk c (dbUpdateWg_of w) (requestWg_of w)
      :: (handler c (dbUpdateWg_of w) (requestWg_of w) <$> reqs).
Proof. reflexivity. Qed.

Lemma ListenAndServe_trace c wk n reqs w : cs_trace (ListenAndServe c wk n reqs w) = [].
Proof. reflexivity. Qed.

Lemma ListenAndServe_counters c wk n reqs w :
  wgCount (cs_world (ListenAndServe c wk n reqs w)) (requestWg_of w) = 0
  /\ wgCount (cs_world (ListenAndServe c wk n reqs w)) (dbUpdateWg_of w) = 0.
Proof.
  pose proof (wait_groups_differ w) as Hne.
  change (cs_world (ListenAndServe c wk n reqs w))
    with (setWaitGroups (insert (dbUpdateWg_of w) 0)
            (setWaitGroups (insert (requestWg_of w) 0) w)).
  split.
  - rewrite wgCount_insert_ne; [apply wgCount_insert_eq|exact Hne].
  - apply wgCount_insert_eq.
Qed.

Lemma exec_Done_false env {X : Type} (e : action X) (w w' : World) (x : X) (wg : loc) :
  exec env e w = Some (x, w') -> event_of e x = EvWgDone wg false -> wgCount w wg = 0.
Proof.
  destruct e; cbn [event_of]; try discriminate.
  cbn [exec]. destruct (wgCount w wg0) eqn:Hc.
  - intros _ [= <- _]. exact Hc.
  - intros [= <- _] [=].
Qed.




(** *** What the gate does ensure *)

(** [Wait] returns only from a counter at zero. *)
Lemma Wait_only_at_zero env (wg : loc) (w w' : World) (x : unit) :
  exec env (AWgWait wg) w = Some (x, w') -> wgCount w wg = 0 /\ w' = w.
Proof.
  cbn [exec]. destruct (wgCount w wg); [|discriminate]. by intros [= _ <-].
Qed.

(** A request that reaches the gate while an update is marked in progress
    does not get past it. *)
Lemma arrival_waits env dbUpdateWg requestWg (req : Request) (s : cstate) (i : nat) :
  cs_pool s !! i = Some (withWaitGroup dbUpdateWg requestWg base_ServeHTTP req) ->
  wgCount (cs_world s) dbUpdateWg <> 0 ->
  fire env i s = None.
Proof.
  intros Hi Hmarked. unfold fire. rewrite Hi. cbn.
  by destruct (wgCount (cs_world s) dbUpdateWg).
Qed.

(** C1 fails on the code.  The check of "no update in progress" and the
    count of the request as in flight are two operations, and an update can
    run between them: here the request passes the check, the update goroutine
    marks the update, finds no request in flight and closes the database, and
    only then does the request count itself in and run its handler, which
    finds the database closed while the mark is still set and the live file
    has yet to be replaced. *)
Theorem handler_runs_during_swap :
  exists s,
    reachable (Scenario.env None None) Scenario.racing s
    /\ wgCount (cs_world s) (dbUpdateWg_of Scenario.world) = 1
    /\ wgCount (cs_world s) (requestWg_of Scenario.world) = 1
    /\ dbHandle (cs_world s) = None
    /\ cs_trace s
       = [(1, EvWgWait (dbUpdateWg_of Scenario.world));
          (0, EvMetadataGet "/cache" (inl Scenario.metadata));
          (0, EvGaugeSet 7 "last_db_update_attempt" 1600000000);
          (0, EvGaugeSet 7 "last_db_update" 1600000000);
          (0, EvNow 1600003600);
          (0, EvGaugeSet 7 "last_db_update_attempt" 1600003600);
          (0, EvDebug "Check for DB update...");
          (0, EvNeedsUpdate "dev" false false (true, None));
          (0, EvInfo "Updating DB...");
          (0, EvTempDir (inl "/tmp/db123"));
          (0, EvDownload "/tmp/db123" false None);
          (0, EvInfo "Suspending all requests during DB update");
          (0, EvWgAdd (dbUpdateWg_of Scenario.world) 1);
          (0, EvInfo "Waiting for all requests to be processed before DB update...");
          (0, EvWgWait (requestWg_of Scenario.world));
          (0, EvDbClose None);
          (1, EvWgAdd (requestWg_of Scenario.world) 1);
          (1, EvServeHTTP 0 None ServedOK)].
Proof.
  eexists. split.
  - apply (schedule_reachable _ Scenario.race). vm_compute. reflexivity.
  - vm_compute. repeat split.
Qed.

(** ** The theorems at work on the concrete server *)

Lemma staging_is_new : is_new_dir "/tmp/db123" Scenario.world.
Proof.
  intros p Hp. unfold Scenario.world. cbn [files].
  destruct (decide (p = "/cache/db/trivy.db")) as [->|Hne].
  - vm_compute in Hp. discriminate Hp.
  - rewrite lookup_insert_ne by done. apply lookup_empty.
Defined.

Lemma gate_always_released_witness :
  let r := run (Scenario.env (Some (noWrapError "no space left on device")) None)
               (hotUpdate (newDBWorker Scenario.client) "/cache" 1 0) Scenario.world in
  outcomeOf r <> Blocked
  /\ In (EvWgAdd 1 1) (eventsOf r)
  /\ In (EvCopyFile "/tmp/db123/db/trivy.db" "/cache/db/trivy.db"
           (Some (noWrapError "no space left on device"))) (eventsOf r)
  /\ total (released 1) (eventsOf r) = 1
  /\ wgCount (worldOf r) 1 = wgCount Scenario.world 1.
Proof.
  intros r.
  assert (outcomeOf r <> Blocked) as Hout by (vm_compute; discriminate).
  assert (In (EvWgAdd 1 1) (eventsOf r)) as Hin by (vm_compute; tauto).
  split; [exact Hout|]. split; [exact Hin|]. split; [vm_compute; tauto|].
  split;
    apply (gate_always_released
             (Scenario.env (Some (noWrapError "no space left on device")) None)
             (newDBWorker Scenario.client) "/cache" 1 0 Scenario.world Hout Hin).
Defined.

Lemma hot_swap_in_order_witness :
  let r := run (Scenario.env None None)
               (hotUpdate (newDBWorker Scenario.client) "/cache" 1 0) Scenario.world in
  In (EvDownload "/tmp/db123" false None) (eventsOf r)
  /\ outcomeOf r = Returned None
  /\ swap_steps 1 0 (eventsOf r) = hot_swap_order
  /\ files (worldOf r) !! "/cache/db/trivy.db" = Some "new database".
Proof.
  intros r.
  assert (In (EvDownload "/tmp/db123" false None) (eventsOf r)) as Hin
    by (vm_compute; tauto).
  pose proof (hot_swap_in_order (Scenario.env None None) (newDBWorker Scenario.client)
                "/cache" 1 0 Scenario.world "/tmp/db123" false Hin) as (_ & _ & Hfile).
  split; [exact Hin|]. split; [reflexivity|]. split; [reflexivity|].
  exact (Hfile eq_refl).
Defined.

Lemma download_failure_aborts_witness :
  let r := run (Scenario.env None None)
               (update (newDBWorker Scenario.broken_client) "dev" "/cache" 1 0 (Some 7))
               Scenario.world in
  is_new_dir "/tmp/db123" Scenario.world
  /\ In (EvNeedsUpdate "dev" false false (true, None)) (eventsOf r)
  /\ In (EvDownload "/tmp/db123" false (Some (noWrapError "unexpected EOF"))) (eventsOf r)
  /\ outcomeOf r = Returned (Some (noWrapError "failed DB hot update"))
  /\ files (worldOf r) = files Scenario.world.
Proof.
  intros r.
  assert (In (EvNeedsUpdate "dev" false false (true, None)) (eventsOf r)) as Hup
    by (vm_compute; tauto).
  assert (In (EvDownload "/tmp/db123" false (Some (noWrapError "unexpected EOF")))
            (eventsOf r)) as Hdown by (vm_compute; tauto).
  pose proof (download_failure_aborts (Scenario.env None None)
                (newDBWorker Scenario.broken_client) "dev" "/cache" 1 0 (Some 7)
                Scenario.world "dev" false false "/tmp/db123" false
                (noWrapError "unexpected EOF") staging_is_new Hup Hdown)
    as (Hout & _ & _ & _ & _ & _ & Hfiles & _).
  split; [exact staging_is_new|]. split; [exact Hup|]. split; [exact Hdown|].
  split; [exact Hout | exact Hfiles].
Defined.

Lemma decision_failure_drops_cause_witness :
  let r := run (Scenario.env None None)
               (update (newDBWorker Scenario.unreachable_client) "dev" "/cache" 1 0 (Some 7))
               Scenario.world in
  In (EvNeedsUpdate "dev" false false (false, Some (noWrapError "connection refused")))
     (eventsOf r)
  /\ exists err,
       outcomeOf r = Returned (Some err)
       /\ Unwrap err = None
       /\ ~ Is err (noWrapError "connection refused")
       /\ Error err = "failed to check if db needs an update".
Proof.
  intros r.
  assert (In (EvNeedsUpdate "dev" false false
                (false, Some (noWrapError "connection refused"))) (eventsOf r)) as Hin
    by (vm_compute; tauto).
  destruct (decision_failure_drops_cause (Scenario.env None None)
              (newDBWorker Scenario.unreachable_client) "dev" "/cache" 1 0 (Some 7)
              Scenario.world "dev" false false false (noWrapError "connection refused") Hin)
    as (err & Hout & Hunwrap & _ & Hcause & Htext & _).
  split; [exact Hin|]. exists err.
  split; [exact Hout|]. split; [exact Hunwrap|].
  split; [intros His; discriminate (Hcause His) | exact Htext].
Defined.

Lemma metric_outcomes_witness :
  let updated := run (Scenario.env None None)
                     (update (newDBWorker Scenario.client) "dev" "/cache" 1 0 (Some 7))
                     Scenario.world in
  let idle := run (Scenario.env None None)
                  (update (newDBWorker Scenario.idle_client) "dev" "/cache" 1 0 (Some 7))
                  Scenario.world in
  (outcomeOf updated = Returned None
   /\ In (EvNeedsUpdate "dev" false false (true, None)) (eventsOf updated)
   /\ sample (worldOf updated) 7 "last_db_update_attempt" = Some 1600003600%Z
   /\ sample (worldOf updated) 7 "last_db_update" = Some 1600003601%Z)
  /\ (In (EvNeedsUpdate "dev" false false (false, None)) (eventsOf idle)
      /\ outcomeOf idle = Returned None
      /\ calls is_Download (eventsOf idle) = 0
      /\ sample (worldOf idle) 7 "last_db_update" = sample Scenario.world 7 "last_db_update").
Proof.
  intros updated idle. split.
  - assert (outcomeOf updated = Returned None) as Hout by reflexivity.
    assert (In (EvNeedsUpdate "dev" false false (true, None)) (eventsOf updated)) as Hin
      by (vm_compute; tauto).
    destruct (proj1 (metric_outcomes (Scenario.env None None) (newDBWorker Scenario.client)
                       "dev" "/cache" 1 0 (Some 7) Scenario.world "dev" false false)
                Hout Hin)
      as (g & Hg & _ & _ & Hattempt & Hsuccess).
    injection Hg as <-.
    split; [exact Hout|]. split; [exact Hin|]. split; [exact Hattempt | exact Hsuccess].
  - assert (In (EvNeedsUpdate "dev" false false (false, None)) (eventsOf idle)) as Hin
      by (vm_compute; tauto).
    destruct (proj2 (metric_outcomes (Scenario.env None None)
                       (newDBWorker Scenario.idle_client)
                       "dev" "/cache" 1 0 (Some 7) Scenario.world "dev" false false) Hin)
      as (Hout & Hdown & _ & _ & g & Hg & _ & _ & _ & Hsuccess).
    injection Hg as <-.
    split; [exact Hin|]. split; [exact Hout|]. split; [exact Hdown | exact Hsuccess].
Defined.

Lemma nil_gauge_blocks_updates_witness :
  let r := run (Scenario.env None (Some (noWrapError "metadata.json: no such file")))
               (updateGoroutine 3 (newDBWorker Scenario.client) Scenario.config 1 0)
               Scenario.world in
  outcomeOf (run (Scenario.env None (Some (noWrapError "metadata.json: no such file")))
                 (initializeMetricGauge (GaugeMetric Scenario.config)
                    (CacheDir Scenario.config)) Scenario.world)
  = Returned (Some (wrapError "Error initialising the metrics for prometheus endpoint: %w"
                      (noWrapError "metadata.json: no such file")))
  /\ logged_errors (eventsOf r)
     = wrapError "Error initialising the metrics for prometheus endpoint: %w"
         (noWrapError "metadata.json: no such file")
         :: replicate 3 (wrapError "%w" gauge_nil_error)
  /\ no_update_activity Scenario.world r.
Proof.
  intros r.
  assert (outcomeOf (run (Scenario.env None (Some (noWrapError "metadata.json: no such file")))
                         (initializeMetricGauge (GaugeMetric Scenario.config)
                            (CacheDir Scenario.config)) Scenario.world)
          = Returned (Some (wrapError
                              "Error initialising the metrics for prometheus endpoint: %w"
                              (noWrapError "metadata.json: no such file")))) as Hseed
    by reflexivity.
  destruct (proj2 (proj2 (nil_gauge_blocks_updates
                            (Scenario.env None (Some (noWrapError "metadata.json: no such file")))
                            (newDBWorker Scenario.client) Scenario.config 1 0 3
                            Scenario.world)) _ Hseed)
    as (_ & Hlogged & _ & Hquiet).
  split; [exact Hseed|]. split; [exact Hlogged | exact Hquiet].
Defined.


(** ** Requests at the token check and at the gate *)

(** X1. A request is turned away when a token is configured and the header
    the server reads does not carry it: the handler writes the error answer
    and returns.  It does so in any state, also while an update is marked in
    progress, since the token is checked before the gate; the wrapped handler
    is not called and no wait group is touched. *)
Theorem unauthorized_request_rejected env c dbUpdateWg requestWg req w :
  Token c <> EmptyString ->
  req_header req (TokenHeader c) <> Token c ->
  run env (handler c dbUpdateWg requestWg req) w
  = mkResult (Returned tt) w [EvWriteError (req_id req)].
Proof.
  intros Hset Hbad. unfold handler, withToken.
  destruct (String.eqb_spec (Token c) EmptyString) as [Hempty|_]; [done|].
  destruct (String.eqb_spec (Token c) (req_header req (TokenHeader c))) as [Heq|_];
    [by rewrite Heq in Hbad|].
  reflexivity.
Qed.

Lemma handler_passes c dbUpdateWg requestWg req :
  Token c = EmptyString \/ req_header req (TokenHeader c) = Token c ->
  handler c dbUpdateWg requestWg req = withWaitGroup dbUpdateWg requestWg base_ServeHTTP req.
Proof.
  intros Hok. unfold handler, withToken.
  destruct (String.eqb_spec (Token c) EmptyString) as [Hempty|Hset]; [reflexivity|].
  destruct (String.eqb_spec (Token c) (req_header req (TokenHeader c))) as [Heq|Hne];
    [reflexivity|].
  by destruct Hok as [Hok|Hok]; [|symmetry in Hok].
Qed.

(** X2. A request that passes the token check while no update is marked is
    counted in, handed to the wrapped handler once, and counted out: the
    handler sees the database handle as it is, and the count is lowered also
    when the handler panics, the panic going on to the caller.  Every wait
    group ends at the count it had, and gauges, files and handle are those
    from before. *)
Theorem passing_request_served env c dbUpdateWg requestWg req w :
  Token c = EmptyString \/ req_header req (TokenHeader c) = Token c ->
  wgCount w dbUpdateWg = 0 ->
  let r := run env (handler c dbUpdateWg requestWg req) w in
  let counted := setWaitGroups (insert requestWg (wgCount w requestWg + 1)) w in
  eventsOf r = [EvWgWait dbUpdateWg; EvWgAdd requestWg 1;
                EvServeHTTP (req_id req) (dbHandle w) (ServeHTTP env req counted);
                EvWgDone requestWg true]
  /\ outcomeOf r = match ServeHTTP env req counted with
                   | ServePanicked => Panicked
                   | ServedOK | ServedError => Returned tt
                   end
  /\ (forall wg, wgCount (worldOf r) wg = wgCount w wg)
  /\ gauges (worldOf r) = gauges w
  /\ files (worldOf r) = files w
  /\ dbHandle (worldOf r) = dbHandle w.
Proof.
  intros Hok Hidle r counted. subst r. rewrite (handler_passes _ _ _ _ Hok).
  unfold withWaitGroup.
  cbn [run bind defer call exec event_of WaitGroup_Wait WaitGroup_Add WaitGroup_Done
       base_ServeHTTP outcomeOf worldOf eventsOf fst snd].
  rewrite Hidle.
  cbn [run bind defer call exec event_of outcomeOf worldOf eventsOf fst snd].
  fold counted.
  assert (wgCount counted requestWg = S (wgCount w requestWg)) as Hcount.
  { unfold counted. rewrite wgCount_insert_eq. lia. }
  assert (forall wg,
            wgCount (setWaitGroups (insert requestWg (wgCount w requestWg)) counted) wg
            = wgCount w wg) as Hback.
  { intros wg. destruct (decide (wg = requestWg)) as [->|Hne].
    - apply wgCount_insert_eq.
    - unfold counted. by rewrite !wgCount_insert_ne. }
  destruct (ServeHTTP env req counted);
    cbn [run bind defer call exec event_of outcomeOf worldOf eventsOf fst snd
         WaitGroup_Done];
    rewrite Hcount;
    cbn [run bind defer call exec event_of outcomeOf worldOf eventsOf fst snd];
    unfold counted; world_simpl; by repeat split.
Qed.

(** X3. While an update is marked in progress, a request that passes the
    token check cannot take a step: its goroutine is held at the gate before
    it is counted in or served, alone as well as among other goroutines. *)
Theorem update_mark_holds_requests env c dbUpdateWg requestWg req s i :
  Token c = EmptyString \/ req_header req (TokenHeader c) = Token c ->
  cs_pool s !! i = Some (handler c dbUpdateWg requestWg req) ->
  wgCount (cs_world s) dbUpdateWg <> 0 ->
  fire env i s = None
  /\ run env (handler c dbUpdateWg requestWg req) (cs_world s)
     = mkResult Blocked (cs_world s) [].
Proof.
  intros Hok Hi Hmarked. rewrite (handler_passes _ _ _ _ Hok) in *.
  unfold fire. rewrite Hi. cbn.
  by destruct (wgCount (cs_world s) dbUpdateWg).
Qed.

(** X4. Under every interleaving, the goroutine of a request that fails the
    token check does nothing but write the error answer, once: it never
    waits at the gate, never counts itself in and never reaches the wrapped
    handler. *)
Theorem unauthorized_never_served env c wk n reqs w s j req :
  reachable env (ListenAndServe c wk n reqs w) s ->
  reqs !! j = Some req ->
  Token c <> EmptyString ->
  req_header req (TokenHeader c) <> Token c ->
  thread_events (S j) (cs_trace s) = []
  \/ thread_events (S j) (cs_trace s) = [EvWriteError (req_id req)].
Proof.
  intros Hreach Hj Hset Hbad.
  destruct (reachable_inv env _ s (ListenAndServe_trace c wk n reqs w) Hreach)
    as (_ & _ & Hpaths & _).
  destruct (Hpaths (S j) (handler c (dbUpdateWg_of w) (requestWg_of w) req))
    as (p & _ & Hpath).
  { rewrite ListenAndServe_pool, lookup_cons. cbv iota beta.
    by rewrite list_lookup_fmap, Hj. }
  revert Hpath. unfold handler, withToken.
  destruct (String.eqb_spec (Token c) EmptyString) as [Hempty|_]; [done|].
  destruct (String.eqb_spec (Token c) (req_header req (TokenHeader c))) as [Heq|_];
    [by rewrite Heq in Hbad|].
  cbn [andb negb detector_WriteError call]. intros Hpath.
  destruct (thread_events (S j) (cs_trace s)) as [|ev evs]; [by left|right].
  cbn in Hpath. destruct Hpath as ([] & -> & Hpath).
  destruct evs as [|ev' evs]; [reflexivity|]. destruct Hpath.
Qed.

Lemma unauthorized_request_rejected_witness :
  run (Scenario.env None None) (handler Guarded.config 1 0 (Guarded.request 0 "guess"))
      Scenario.world
  = mkResult (Returned tt) Scenario.world [EvWriteError 0].
Proof.
  apply (unauthorized_request_rejected (Scenario.env None None) Guarded.config 1 0
           (Guarded.request 0 "guess") Scenario.world); vm_compute; discriminate.
Defined.

Lemma passing_request_served_witness :
  let r := run (Scenario.env None None)
               (handler Guarded.config 1 0 (Guarded.request 2 "s3cret")) Scenario.world in
  outcomeOf r = Panicked
  /\ In (EvWgDone 0 true) (eventsOf r)
  /\ wgCount (worldOf r) 0 = 0.
Proof.
  intros r.
  destruct (passing_request_served (Scenario.env None None) Guarded.config 1 0
              (Guarded.request 2 "s3cret") Scenario.world
              (or_intror eq_refl) eq_refl) as (Hevs & Hout & Hcount & _).
  split; [exact Hout|]. split; [|exact (Hcount 0)].
  fold r in Hevs. rewrite Hevs. in_list.
Defined.

Lemma update_mark_holds_requests_witness :
  let s := mkCstate (setWaitGroups (insert 1 1) Scenario.world)
                    [Ret tt; handler Guarded.config 1 0 (Guarded.request 1 "s3cret")] [] in
  fire (Scenario.env None None) 1 s = None.
Proof.
  intros s.
  apply (update_mark_holds_requests (Scenario.env None None) Guarded.config 1 0
           (Guarded.request 1 "s3cret") s 1 (or_intror eq_refl) eq_refl).
  vm_compute. discriminate.
Defined.

Lemma unauthorized_never_served_witness :
  reachable (Scenario.env None None) Guarded.arrivals Guarded.arrivals_end
  /\ thread_events 1 (cs_trace Guarded.arrivals_end) = [EvWriteError 0]
  /\ In (2, EvServeHTTP 1 (Some "/cache/db/trivy.db") ServedError)
        (cs_trace Guarded.arrivals_end).
Proof.
  assert (reachable (Scenario.env None None) Guarded.arrivals Guarded.arrivals_end)
    as Hreach.
  { apply (schedule_reachable _ [1; 2; 2; 2; 2]). vm_compute. reflexivity. }
  split; [exact Hreach|]. split; [|vm_compute; tauto].
  destruct (unauthorized_never_served (Scenario.env None None) Guarded.config
              (newDBWorker Scenario.client) 1
              [Guarded.request 0 "guess"; Guarded.request 1 "s3cret"] Scenario.world
              Guarded.arrivals_end 0 (Guarded.request 0 "guess") Hreach eq_refl)
    as [Hnone|Hone]; [vm_compute; discriminate | vm_compute; discriminate | | exact Hone].
  vm_compute in Hnone. discriminate Hnone.
Defined.

(** ** More of the update worker *)

(** X5. Seeding the gauge at startup reads the metadata once and never the
    clock.  When the metadata is read, both samples, the attempt as well as
    the update, are set to the time the database was last updated at, and nil
    is returned.  When reading fails, no sample is set, the state is as
    before, and the error returned wraps the failure behind the message
    "Error initialising the metrics for prometheus endpoint". *)
Theorem seeding_sets_both_samples env g cacheDir w :
  let r := run env (initializeMetricGauge (Some g) cacheDir) w in
  match Metadata_Get env cacheDir w with
  | inl metadata =>
      outcomeOf r = Returned None
      /\ eventsOf r = [EvMetadataGet cacheDir (inl metadata);
                       EvGaugeSet g "last_db_update_attempt" (UpdatedAt metadata);
                       EvGaugeSet g "last_db_update" (UpdatedAt metadata)]
      /\ sample (worldOf r) g "last_db_update_attempt" = Some (UpdatedAt metadata)
      /\ sample (worldOf r) g "last_db_update" = Some (UpdatedAt metadata)
      /\ clockReads (worldOf r) = clockReads w
  | inr e =>
      exists err,
        r = mkResult (Returned (Some err)) w [EvMetadataGet cacheDir (inr e)]
        /\ Unwrap err = Some e
        /\ Error err
           = "Error initialising the metrics for prometheus endpoint: " +:+ Error e
  end.
Proof.
  intros r. subst r. cbn [initializeMetricGauge run bind call exec].
  destruct (Metadata_Get env cacheDir w) as [metadata|e].
  - rewrite !updateLast_some.
    cbn [run bind call exec GaugeVec_With_Set event_of outcomeOf worldOf eventsOf].
    split; [reflexivity|]. split; [reflexivity|].
    split; [|split; [apply sample_setGauges_eq | by world_simpl]].
    rewrite sample_setGauges_ne by done. apply sample_setGauges_eq.
  - cbn [run bind call exec event_of outcomeOf worldOf eventsOf xerrors_Errorf].
    eexists. split; [reflexivity|]. split; reflexivity.
Qed.

Lemma wgCount_insert (w : World) (wg wg' : loc) (n : nat) :
  wgCount (setWaitGroups (insert wg' n) w) wg = if decide (wg = wg') then n else wgCount w wg.
Proof.
  destruct (decide (wg = wg')) as [->|Hne].
  - apply wgCount_insert_eq.
  - by apply wgCount_insert_ne.
Qed.

(** The counters after the steps of an execution, read back to the start. *)
Ltac counters :=
  repeat first [rewrite wgCount_insert | rewrite wgCount_setGauges
               | rewrite wgCount_setFiles | rewrite wgCount_setDbHandle
               | rewrite wgCount_tickClock | progress unfold RemoveAll].

Ltac counters_in H :=
  repeat first [rewrite wgCount_insert in H | rewrite wgCount_setGauges in H
               | rewrite wgCount_setFiles in H | rewrite wgCount_setDbHandle in H
               | rewrite wgCount_tickClock in H | progress unfold RemoveAll in H].

Ltac counters_hyps :=
  repeat match goal with
         | H : wgCount _ _ = _ |- _ => progress (counters_in H)
         end;
  repeat match goal with
         | H : context [decide (?a = ?b)] |- _ => destruct (decide (a = b)); try subst
         | |- context [decide (?a = ?b)] => destruct (decide (a = b)); try subst
         end.

(** X6. [hotUpdate] never panics.  It returns nil exactly when none of its
    collaborators has failed, and an error exactly when one has: it stops at
    that failure, so the trace holds one failure, and the error it returns
    wraps it, the text being a message, a colon and the text of the cause.
    Otherwise it is held at the drain, no collaborator having failed, with
    requests still counted in. *)
Theorem hotUpdate_wraps_cause env wk cacheDir dbUpdateWg requestWg w :
  let r := run env (hotUpdate wk cacheDir dbUpdateWg requestWg) w in
  match outcomeOf r with
  | Returned None => omap failure_of (eventsOf r) = []
  | Returned (Some err) =>
      exists e msg,
        omap failure_of (eventsOf r) = [e]
        /\ Unwrap err = Some e
        /\ Is err e
        /\ Error err = msg +:+ ": " +:+ Error e
  | Panicked => False
  | Blocked =>
      omap failure_of (eventsOf r) = []
      /\ wgCount (worldOf r) requestWg <> 0
  end.
Proof.
  intros r. remember r as r' eqn:Hr. unfold r in Hr. clear r.
  sym_exec Hr.
  all: subst r'; cbn [eventsOf worldOf outcomeOf omap list_omap failure_of].
  all: try reflexivity.
  all: try (eexists _, _; split; [reflexivity|]; split; [reflexivity|];
            split; [cbn; auto using Is_refl | reflexivity]).
  all: try (split; [reflexivity|]; congruence).
  all: counters_hyps; lia.
Qed.

(** X7. When no staging directory could be made, [hotUpdate] returns an error
    that wraps the failure, and has done nothing else.  When one was made,
    then unless the update is held at the drain, the last thing [hotUpdate]
    does is remove it, once, however the steps in between went: no file is
    left below it. *)
Theorem staging_always_removed env wk cacheDir dbUpdateWg requestWg w :
  let r := run env (hotUpdate wk cacheDir dbUpdateWg requestWg) w in
  match TempDir env EmptyString "db" w with
  | inr e =>
      r = mkResult (Returned (Some (wrapError "failed to create a temp dir: %w" e))) w
            [EvTempDir (inr e)]
  | inl tmpDir =>
      outcomeOf r = Blocked
      \/ (last (eventsOf r) = Some (EvRemoveAll tmpDir)
          /\ calls is_RemoveAll (eventsOf r) = 1
          /\ forall p, under tmpDir p = true -> files (worldOf r) !! p = None)
  end.
Proof.
  intros r. remember r as r' eqn:Hr. unfold r in Hr. clear r.
  sym_exec Hr.
  all: subst r'; cbn [eventsOf worldOf outcomeOf].
  all: try reflexivity.
  all: try (left; reflexivity).
  all: right; split; [reflexivity|]; split; [reflexivity|].
  all: intros p Hp; world_simpl; by apply staging_removed.
Qed.

(** X8. With requests still counted in, [hotUpdate] does not touch the
    database: no step of the swap is run and the handle stays as it is.  It
    does not return nil; it is held at the drain exactly when it has marked
    the update, and then the mark stays set. *)
Theorem swap_waits_for_drain env wk cacheDir dbUpdateWg requestWg w :
  wgCount w requestWg <> 0 ->
  let r := run env (hotUpdate wk cacheDir dbUpdateWg requestWg) w in
  outcomeOf r <> Returned None
  /\ calls is_swap (eventsOf r) = 0
  /\ dbHandle (worldOf r) = dbHandle w
  /\ (outcomeOf r = Blocked <-> In (EvWgAdd dbUpdateWg 1) (eventsOf r))
  /\ (outcomeOf r = Blocked -> wgCount (worldOf r) dbUpdateWg = S (wgCount w dbUpdateWg)).
Proof.
  intros Hbusy r. remember r as r' eqn:Hr. unfold r in Hr. clear r.
  sym_exec Hr.
  all: subst r'; cbn [eventsOf worldOf outcomeOf].
  all: counters_hyps; try lia.
  all: split; [discriminate|]; split; [reflexivity|]; split; [by world_simpl|].
  all: split; [split; [intros; try discriminate; in_list
                      | intros Hin; in_cases Hin; try discriminate Hin; reflexivity]|].
  all: intros; try discriminate; counters; counters_hyps; lia.
Qed.

Lemma calls_app (f : event -> bool) (l1 l2 : list event) :
  calls f (l1 ++ l2) = calls f l1 + calls f l2.
Proof. unfold calls. by rewrite List.filter_app, length_app. Qed.

Lemma logged_errors_app (l1 l2 : list event) :
  logged_errors (l1 ++ l2) = (logged_errors l1 ++ logged_errors l2)%list.
Proof. apply omap_app. Qed.

(** A cycle with a gauge, started with no request counted in. *)
Lemma update_round env wk appVersion cacheDir dbUpdateWg requestWg g w :
  wgCount w requestWg = 0 ->
  dbUpdateWg <> requestWg ->
  let r := run env (update wk appVersion cacheDir dbUpdateWg requestWg (Some g)) w in
  (exists res, outcomeOf r = Returned res
               /\ match res with Some err => cycle_error err | None => True end)
  /\ calls is_NeedsUpdate (eventsOf r) = 1
  /\ logged_errors (eventsOf r) = []
  /\ forall wg, wgCount (worldOf r) wg = wgCount w wg.
Proof.
  intros Hidle Hne r. remember r as r' eqn:Hr. unfold r in Hr. clear r.
  sym_exec Hr.
  all: subst r'; cbn [eventsOf worldOf outcomeOf].
  all: counters_hyps; try lia; try congruence.
  all: split; [eexists; split; [reflexivity|]; first [exact I | by left | by right]|].
  all: split; [reflexivity|]; split; [reflexivity|].
  all: intros wg; counters; counters_hyps; first [congruence | lia].
Qed.

(** X9. A round that fails does not end the loop.  With a gauge and with no
    request counted in, [n] rounds ask the client [n] times whether an update
    is needed and then return; the wait groups are back at their counts; and
    every error the loop logs is one of the two messages of [update] that
    carry no cause. *)
Theorem updateLoop_survives_failures env wk c dbUpdateWg requestWg g n w :
  wgCount w requestWg = 0 ->
  dbUpdateWg <> requestWg ->
  let r := run env (updateLoop n wk c dbUpdateWg requestWg (Some g)) w in
  outcomeOf r = Returned tt
  /\ calls is_NeedsUpdate (eventsOf r) = n
  /\ (forall wg, wgCount (worldOf r) wg = wgCount w wg)
  /\ Forall (fun err => cycle_error err /\ Unwrap err = None) (logged_errors (eventsOf r)).
Proof.
  intros Hidle Hne. revert w Hidle. induction n as [|n IH]; intros w Hidle r; subst r.
  - cbn. repeat split; constructor.
  - cbn [updateLoop]. rewrite run_bind.
    destruct (update_round env wk (AppVersion c) (CacheDir c) dbUpdateWg requestWg g w
                Hidle Hne) as ((res & Hout & Herr) & Hasked & Hquiet & Hcount).
    destruct (run env (update wk (AppVersion c) (CacheDir c) dbUpdateWg requestWg (Some g)) w)
      as [o1 w1 evs1].
    cbn [outcomeOf worldOf eventsOf] in *. subst o1.
    unfold seq_result. cbn [outcomeOf worldOf eventsOf].
    assert (wgCount w1 requestWg = 0) as Hidle1 by (rewrite Hcount; exact Hidle).
    specialize (IH w1 Hidle1). cbn zeta in IH.
    destruct IH as (Hout & Hasked' & Hcount' & Hlogged).
    destruct res as [err|];
      cbn [bind run Logger_Errorf call exec event_of outcomeOf worldOf eventsOf].
    all: destruct (run env (updateLoop n wk c dbUpdateWg requestWg (Some g)) w1)
      as [o2 w2 evs2]; cbn [outcomeOf worldOf eventsOf] in *; subst o2.
    all: cbn [outcomeOf worldOf eventsOf app].
    all: rewrite calls_app, logged_errors_app, Hasked, Hquiet.
    all: split; [reflexivity|]; split; [unfold calls in *; cbn [app List.filter is_NeedsUpdate]; lia|].
    all: split; [intros wg; by rewrite Hcount', Hcount|].
    all: cbn [app logged_errors omap list_omap]; try exact Hlogged.
    constructor; [|exact Hlogged].
    split; [exact Herr|]. by destruct Herr as [->| ->].
Qed.

(** X10. The text of the error a cycle returns for a nil gauge is the one the
    test of [update] expects, the message of the gauge twice: [update] wraps
    the error with the format "%w" alone. *)
Theorem nil_gauge_error_text env wk appVersion cacheDir dbUpdateWg requestWg w :
  exists err,
    outcomeOf (run env (update wk appVersion cacheDir dbUpdateWg requestWg None) w)
    = Returned (Some err)
    /\ Unwrap err = Some gauge_nil_error
    /\ Error err = "Prometheus gauge found to be nil: Prometheus gauge found to be nil".
Proof.
  rewrite update_nil. cbn [run exec outcomeOf]. eexists. split; [reflexivity|].
  split; reflexivity.
Qed.

(** ** The server with the gauge as a package variable *)

(** X11. In the server that keeps the gauge in a package variable, a cycle
    reads the clock once, at its start, and records the attempt with that
    reading before the client is asked, whatever follows.  The update sample
    is set only by a cycle that returns nil after a swap, and to the same
    reading as the attempt, not to the time the swap ended at. *)
Theorem legacy_cycle_records_attempt env g wk appVersion cacheDir dbUpdateWg requestWg w :
  let r := run env (Legacy.update (Some g) wk appVersion cacheDir dbUpdateWg requestWg) w in
  let now := clock env (clockReads w) in
  (exists answer rest,
     eventsOf r = EvNow now :: EvGaugeSet g "last_db_update_attempt" now
                    :: EvDebug "Check for DB update..."
                    :: EvNeedsUpdate appVersion false false answer
                    :: rest)
  /\ sample (worldOf r) g "last_db_update_attempt" = Some now
  /\ clockReads (worldOf r) = S (clockReads w)
  /\ (forall g' t,
        In (EvGaugeSet g' "last_db_update" t) (eventsOf r) ->
        g' = g /\ t = now
        /\ outcomeOf r = Returned None
        /\ calls is_swap (eventsOf r) = 4
        /\ sample (worldOf r) g "last_db_update" = Some now).
Proof.
  intros r now. remember r as r' eqn:Hr. unfold r in Hr. clear r.
  unfold Legacy.update, Legacy.updateLastDBUpdatePrometheus,
    Legacy.updateLastDBUpdateAttemptPrometheus in Hr.
  sym_exec Hr.
  all: subst r'; cbn [eventsOf worldOf outcomeOf]; (split; [by do 2 eexists|]).
  all: split;
    [world_simpl; rewrite ?sample_setGauges_ne by done; world_simpl;
     apply sample_setGauges_eq|].
  all: split; [by world_simpl|].
  all: intros g' t Hin; in_cases Hin; try discriminate Hin.
  all: simplify_eq.
  all: repeat split; world_simpl; apply sample_setGauges_eq.
Qed.

(** ** [pkg/log] *)

(** X12. [NewLogger] fails only when the low-priority output is to be
    discarded and the null device cannot be opened, and then with the error
    of the operating system as it is.  The logger it builds writes an entry
    to at most one place: one of level Error or above to standard error,
    whatever the flags; one below Error to standard output, or to the null
    device when output is disabled; and one of level Debug or below nowhere,
    unless debugging is on. *)
Theorem levels_routed_once os_Create debug disable :
  match log.NewLogger os_Create debug disable with
  | (Some l, None) =>
      log.development l = debug
      /\ forall lvl,
           log.written l lvl
           = if (log.ErrorLevel <=? lvl)%Z then [log.Stderr]
             else if debug || (log.DebugLevel <? lvl)%Z
                  then [if disable then log.DevNull else log.Stdout]
                  else []
  | (None, Some err) => disable = true /\ os_Create = Some err
  | _ => False
  end.
Proof.
  unfold log.NewLogger.
  destruct disable, os_Create as [e|]; cbn; try done.
  all: split; [reflexivity|]; intros lvl.
  all: unfold log.written, log.errorPriority, log.logPriority; cbn [log.cores List.filter log.core_enab].
  all: destruct debug; cbn [orb];
    destruct (Z.leb_spec log.ErrorLevel lvl), (Z.ltb_spec lvl log.ErrorLevel),
      (Z.ltb_spec log.DebugLevel lvl); cbn; try reflexivity; lia.
Qed.

(** X13. [InitLogger] sets [debugOption] to the flag it is given in every
    case, and replaces the package logger in every case: by a logger in
    development mode exactly when debugging is on, or, when [NewLogger]
    fails, by nil, whatever logger was there before; the error it then
    returns wraps the failure behind "error in new logger".  It cannot fail
    unless output is disabled. *)
Theorem InitLogger_sets_globals os_Create debug disable g :
  let r := log.InitLogger os_Create debug disable g in
  log.debugOption (snd r) = debug
  /\ match fst r with
     | None =>
         (exists l, log.Logger (snd r) = Some l /\ log.development l = debug)
         /\ (disable = false \/ os_Create = None)
     | Some err =>
         log.Logger (snd r) = None
         /\ disable = true
         /\ exists e, os_Create = Some e
                      /\ Unwrap err = Some e
                      /\ Error err = "error in new logger: " +:+ Error e
     end.
Proof.
  unfold log.InitLogger, log.NewLogger.
  destruct disable, os_Create as [e|]; cbv zeta; cbn [fst snd log.debugOption log.Logger xerrors_Errorf].
  all: split; [reflexivity|].
  1: by (split; [|split; [|exists e]]).
  all: split; [by eexists | auto].
Qed.

(** ** More of the theorems at work *)

Lemma swap_waits_for_drain_witness :
  let busy := setWaitGroups (insert 0 1) Scenario.world in
  let r := run (Scenario.env None None)
               (hotUpdate (newDBWorker Scenario.client) "/cache" 1 0) busy in
  wgCount busy 0 <> 0
  /\ outcomeOf r = Blocked
  /\ calls is_swap (eventsOf r) = 0
  /\ dbHandle (worldOf r) = Some "/cache/db/trivy.db"
  /\ wgCount (worldOf r) 1 = 1.
Proof.
  intros busy r.
  assert (wgCount busy 0 <> 0) as Hbusy by (vm_compute; discriminate).
  destruct (swap_waits_for_drain (Scenario.env None None) (newDBWorker Scenario.client)
              "/cache" 1 0 busy Hbusy) as (_ & Hswap & Hhandle & Hheld & Hmark).
  assert (outcomeOf r = Blocked) as Hout by (apply Hheld; vm_compute; tauto).
  split; [exact Hbusy|]. split; [exact Hout|]. split; [exact Hswap|].
  split; [exact Hhandle | exact (Hmark Hout)].
Defined.

Lemma updateLoop_survives_failures_witness :
  let r := run (Scenario.env None None)
               (updateLoop 3 (newDBWorker Scenario.unreachable_client) Scenario.config 1 0
                  (Some 7)) Scenario.world in
  outcomeOf r = Returned tt
  /\ calls is_NeedsUpdate (eventsOf r) = 3
  /\ logged_errors (eventsOf r)
     = replicate 3 (noWrapError "failed to check if db needs an update").
Proof.
  intros r.
  destruct (updateLoop_survives_failures (Scenario.env None None)
              (newDBWorker Scenario.unreachable_client) Scenario.config 1 0 7 3
              Scenario.world eq_refl) as (Hout & Hasked & _); [discriminate|].
  split; [exact Hout|]. split; [exact Hasked | reflexivity].
Defined.

Lemma legacy_cycle_records_attempt_witness :
  let r := run (Scenario.env None None)
               (Legacy.update (Some 7) (newDBWorker Scenario.client) "dev" "/cache" 1 0)
               Scenario.world in
  In (EvGaugeSet 7 "last_db_update" 1600003600) (eventsOf r)
  /\ outcomeOf r = Returned None
  /\ sample (worldOf r) 7 "last_db_update" = Some 1600003600%Z
  /\ sample (worldOf r) 7 "last_db_update_attempt" = Some 1600003600%Z.
Proof.
  intros r.
  assert (In (EvGaugeSet 7 "last_db_update" 1600003600) (eventsOf r)) as Hin
    by (vm_compute; tauto).
  destruct (legacy_cycle_records_attempt (Scenario.env None None) 7
              (newDBWorker Scenario.client) "dev" "/cache" 1 0 Scenario.world)
    as (_ & Hattempt & _ & Hupdate).
  destruct (Hupdate 7 1600003600%Z Hin) as (_ & _ & Hout & _ & Hsample).
  split; [exact Hin|]. split; [exact Hout|]. split; [exact Hsample | exact Hattempt].
Defined.

(** ** What a cycle leaves alone *)

Lemma sample_setGauges (w : World) (g g' : loc) (label label' : string) (v : Z) :
  sample (setGauges (fun gs => <[g := <[label := v]> (default ∅ (gs !! g))]> gs) w) g' label'
  = if decide (g' = g /\ label' = label) then Some v else sample w g' label'.
Proof.
  destruct (decide (g' = g /\ label' = label)) as [[-> ->]|Hne].
  - apply sample_setGauges_eq.
  - destruct (decide (g' = g)) as [->|Hg].
    + apply sample_setGauges_ne. intros <-. by apply Hne.
    + unfold sample, setGauges. cbn [gauges]. by rewrite lookup_insert_ne.
Qed.


(** X16. A cycle moves no sample but the two it is there for, and those of
    no gauge but the one it is handed; and only a cycle that returns nil
    moves the "last_db_update" sample: a cycle that fails, or is held at the
    drain, leaves it as it was. *)
Theorem cycle_touches_two_samples env wk appVersion cacheDir dbUpdateWg requestWg
    gaugeMetric w :
  let r := run env (update wk appVersion cacheDir dbUpdateWg requestWg gaugeMetric) w in
  (forall g', gaugeMetric <> Some g' -> gauges (worldOf r) !! g' = gauges w !! g')
  /\ (forall g' label,
        label <> "last_db_update_attempt" -> label <> "last_db_update" ->
        sample (worldOf r) g' label = sample w g' label)
  /\ (outcomeOf r = Returned None
      \/ forall g', sample (worldOf r) g' "last_db_update" = sample w g' "last_db_update").
Proof.
  intros r. remember r as r' eqn:Hr. unfold r in Hr. clear r.
  destruct gaugeMetric as [g|]; sym_exec Hr.
  all: subst r'; cbn [eventsOf worldOf outcomeOf].
  all: split; [intros g' Hg'; world_simpl; rewrite ?lookup_insert_ne by congruence;
               world_simpl; rewrite ?lookup_insert_ne by congruence; reflexivity|].
  all: split;
    [intros g' label Ha Hu; world_simpl;
     repeat first [rewrite sample_setGauges | progress world_simpl];
     repeat match goal with
            | |- context [decide ?P] => destruct (decide P) as [[_ ?]|_]; [congruence|]
            end; reflexivity|].
  all: first [left; reflexivity | right; intros g'; world_simpl].
  all: repeat first [rewrite sample_setGauges | progress world_simpl].
  all: repeat match goal with
              | |- context [decide ?P] => destruct (decide P) as [[_ ?]|_]; [discriminate|]
              end; reflexivity.
Qed.

(** X17. Once the database has been closed, a failure of the copy, of the
    metadata or of the reopening leaves it closed.  The cycle returns
    "failed DB hot update" with the mark cleared, the counter of
    [dbUpdateWg] back where it was, so that requests are let in again
    while no database is open. *)
Theorem failed_swap_leaves_db_closed env wk appVersion cacheDir dbUpdateWg requestWg
    gaugeMetric w err :
  let r := run env (update wk appVersion cacheDir dbUpdateWg requestWg gaugeMetric) w in
  In (EvDbClose None) (eventsOf r) ->
  outcomeOf r = Returned (Some err) ->
  err = xerrors_Errorf "failed DB hot update" None
  /\ dbHandle (worldOf r) = None
  /\ In (EvWgDone dbUpdateWg true) (eventsOf r)
  /\ wgCount (worldOf r) dbUpdateWg = wgCount w dbUpdateWg.
Proof.
  intros r. remember r as r' eqn:Hr. unfold r in Hr. clear r.
  destruct gaugeMetric as [g|]; sym_exec Hr.
  all: subst r'; cbn [eventsOf worldOf outcomeOf]; intros Hin Hout.
  all: in_cases Hin; try discriminate Hin; try discriminate Hout.
  all: injection Hout as <-.
  all: counters_hyps; try lia.
  all: split; [reflexivity|]; split; [by world_simpl|]; split; [in_list|].
  all: counters; counters_hyps; lia.
Qed.

Lemma failed_swap_leaves_db_closed_witness :
  let r := run (Scenario.env (Some (noWrapError "no space left on device")) None)
               (update (newDBWorker Scenario.client) "dev" "/cache" 1 0 (Some 7))
               Scenario.world in
  In (EvDbClose None) (eventsOf r)
  /\ outcomeOf r = Returned (Some (noWrapError "failed DB hot update"))
  /\ dbHandle (worldOf r) = None
  /\ wgCount (worldOf r) 1 = 0.
Proof.
  intros r.
  assert (In (EvDbClose None) (eventsOf r)) as Hin by (vm_compute; tauto).
  assert (outcomeOf r = Returned (Some (noWrapError "failed DB hot update"))) as Hout
    by reflexivity.
  destruct (failed_swap_leaves_db_closed
              (Scenario.env (Some (noWrapError "no space left on device")) None)
              (newDBWorker Scenario.client) "dev" "/cache" 1 0 (Some 7) Scenario.world
              (noWrapError "failed DB hot update") Hin Hout)
    as (_ & Hclosed & _ & Hmark).
  split; [exact Hin|]. split; [exact Hout|]. split; [exact Hclosed | exact Hmark].
Defined.

(** ** The mark of an update in progress, under every interleaving *)

Lemma brackets_mono (d : loc) {A : Type} (p : prog A) (k : nat) (Q Q' : A -> nat -> Prop) :
  (forall a k', Q a k' -> Q' a k') -> brackets d p k Q -> brackets d p k Q'.
Proof.
  intros HQ. revert k. induction p as [a | | X e c IH]; intros k; cbn [brackets];
    [by apply HQ | done |].
  intros Hb x. specialize (Hb x). destruct (event_of e x); try (by apply IH).
  - destruct (Nat.eqb wg d); [|by apply IH].
    destruct Hb as [Hle Hb]. split; [done|by apply IH].
  - destruct (Nat.eqb wg d); [|by apply IH].
    destruct ok; [|done]. destruct Hb as (k' & -> & Hb). exists k'. split; [done|by apply IH].
Qed.

Lemma brackets_bind (d : loc) {A B : Type} (p : prog A) (f : A -> prog B) (k : nat)
    (Q : B -> nat -> Prop) :
  brackets d p k (fun a k' => brackets d (f a) k' Q) -> brackets d (bind p f) k Q.
Proof.
  revert k. induction p as [a | | X e c IH]; intros k; cbn [brackets bind]; [done..|].
  intros Hb x. specialize (Hb x). destruct (event_of e x); try (by apply IH).
  - destruct (Nat.eqb wg d); [|by apply IH].
    destruct Hb as [Hle Hb]. split; [done|by apply IH].
  - destruct (Nat.eqb wg d); [|by apply IH].
    destruct ok; [|done]. destruct Hb as (k' & -> & Hb). exists k'. split; [done|by apply IH].
Qed.

(** Along what a goroutine has done, the raises not yet undone are what its
    events add up to. *)
Lemma brackets_path (d : loc) {A : Type} (Q : A -> nat -> Prop) (evs : list event)
    (p0 p : prog A) (k : nat) :
  brackets d p0 k Q -> path p0 evs p -> ~ In (EvWgDone d false) evs -> k <= 1 ->
  exists k', brackets d p k' Q
             /\ k' <= 1
             /\ k' + total (released d) evs = k + total (added d) evs.
Proof.
  revert p0 k. induction evs as [|ev evs IH]; intros p0 k Hb Hpath Hhonest Hk;
    simpl in Hpath.
  - subst p. exists k. cbn. split; [done|split; [done|lia]].
  - destruct p0 as [a | | X e c]; try done. destruct Hpath as (x & -> & Hpath).
    cbn [brackets] in Hb. specialize (Hb x).
    assert (~ In (EvWgDone d false) evs) as Hrest by (intros Hin; apply Hhonest; by right).
    unfold total in *. cbn [sum_list_with].
    destruct (event_of e x) as [| | | | | | |wg delta|wg ok| | | | | | | | | |] eqn:Hev;
      cbn [added released].
    all: try (destruct (IH _ _ Hb Hpath Hrest Hk) as (k' & Hb' & Hk' & Hsum);
              exists k'; split; [done|split; [done|lia]]).
    + destruct (Nat.eqb_spec wg d) as [->|Hne].
      * destruct Hb as [Hle Hb].
        destruct (IH _ _ Hb Hpath Hrest Hle) as (k' & Hb' & Hk' & Hsum).
        exists k'. split; [done|split; [done|lia]].
      * destruct (IH _ _ Hb Hpath Hrest Hk) as (k' & Hb' & Hk' & Hsum).
        exists k'. split; [done|split; [done|lia]].
    + destruct (Nat.eqb_spec wg d) as [->|Hne].
      * destruct ok; [|exfalso; apply Hhonest; by left].
        destruct Hb as (k1 & -> & Hb).
        destruct (IH _ _ Hb Hpath Hrest) as (k' & Hb' & Hk' & Hsum); [lia|].
        exists k'. split; [done|split; [done|lia]].
      * destruct (IH _ _ Hb Hpath Hrest Hk) as (k' & Hb' & Hk' & Hsum).
        exists k'. destruct ok; (split; [done|split; [done|lia]]).
Qed.

(** Unfolding a program of the update goroutine to reach its operations. *)
Ltac brackets_step :=
  first
    [ progress
        (cbn [brackets bind defer call hotUpdate update initializeMetricGauge
              time_Now_Unix Logger_Debug Logger_Info Logger_Errorf ioutil_TempDir
              os_RemoveAll db_Close db_Init utils_CopyFile WaitGroup_Add WaitGroup_Wait
              WaitGroup_Done GaugeVec_With_Set xerrors_Errorf event_of fst snd negb];
         rewrite ?updateLast_nil, ?updateLast_some, ?Nat.eqb_refl)
    | match goal with
      | |- forall _, _ => intros ?
      | |- _ /\ _ => split
      | |- _ <= _ => lia
      | |- exists _, _ => eexists
      | |- _ = _ => reflexivity
      | |- True => exact I
      | |- context [snd ?x] => is_var x; destruct x
      | |- context [negb ?x] => is_var x; destruct x
      | |- context [match ?x with _ => _ end] => is_var x; destruct x
      | |- context [if ?x then _ else _] => is_var x; destruct x
      end ].

Lemma update_brackets wk appVersion cacheDir dbUpdateWg requestWg gaugeMetric :
  dbUpdateWg <> requestWg ->
  brackets dbUpdateWg (update wk appVersion cacheDir dbUpdateWg requestWg gaugeMetric) 0
    (fun _ k => k = 0).
Proof.
  intros Hne. apply Nat.eqb_neq in Hne as Hdq.
  assert (Nat.eqb requestWg dbUpdateWg = false) as Hqd by (apply Nat.eqb_neq; congruence).
  destruct gaugeMetric as [g|]; repeat brackets_step.
Qed.

Lemma updateLoop_brackets n wk c dbUpdateWg requestWg gaugeMetric :
  dbUpdateWg <> requestWg ->
  brackets dbUpdateWg (updateLoop n wk c dbUpdateWg requestWg gaugeMetric) 0
    (fun _ k => k = 0).
Proof.
  intros Hne. induction n as [|n IH]; cbn [updateLoop brackets]; [reflexivity|].
  apply brackets_bind.
  pose proof (update_brackets wk (AppVersion c) (CacheDir c) _ _ gaugeMetric Hne) as Hround.
  revert Hround. apply brackets_mono. intros err k ->.
  destruct err as [err|]; cbn [bind Logger_Errorf call brackets event_of]; [intros _|];
    exact IH.
Qed.

Lemma updateGoroutine_brackets n wk c dbUpdateWg requestWg :
  dbUpdateWg <> requestWg ->
  brackets dbUpdateWg (updateGoroutine n wk c dbUpdateWg requestWg) 0 (fun _ k => k = 0).
Proof.
  intros Hne. unfold updateGoroutine. apply brackets_bind.
  assert (brackets dbUpdateWg (initializeMetricGauge (GaugeMetric c) (CacheDir c)) 0
            (fun _ k => k = 0)) as Hseed.
  { destruct (GaugeMetric c) as [g|]; repeat brackets_step. }
  revert Hseed. apply brackets_mono. intros err k ->. apply brackets_bind.
  destruct err as [err|]; cbn [bind Logger_Errorf call brackets event_of]; [intros _|];
    by apply updateLoop_brackets.
Qed.

Lemma handler_avoids_mark c dbUpdateWg requestWg req :
  dbUpdateWg <> requestWg ->
  avoids (moves dbUpdateWg) (handler c dbUpdateWg requestWg req).
Proof.
  intros Hne.
  assert (Nat.eqb requestWg dbUpdateWg = false) as Hqd by (apply Nat.eqb_neq; congruence).
  unfold handler, withToken, withWaitGroup, base_ServeHTTP, detector_WriteError.
  destruct (negb (String.eqb (Token c) EmptyString)
            && negb (String.eqb (Token c) (req_header req (TokenHeader c)))).
  - cbn. intros _. by split.
  - cbn [avoids bind defer call WaitGroup_Wait WaitGroup_Add WaitGroup_Done event_of moves].
    intros _. split; [done|]. intros _. split; [done|].
    intros [seen out]. split; [done|].
    destruct out; cbn [snd avoids bind defer call WaitGroup_Done event_of moves];
      intros ok; (split; [done|]); by destruct ok.
Qed.

Lemma sum_with_zero (f : nat -> nat) (l : list nat) :
  (forall i, In i l -> f i = 0) -> sum_list_with f l = 0.
Proof.
  induction l as [|a l IH]; intros Hz; [done|]. cbn [sum_list_with].
  rewrite (Hz a) by (by left). rewrite IH; [done|]. intros i Hi. apply Hz. by right.
Qed.

(** Only the update goroutine moves the counter of the mark. *)
Lemma mark_moved_by_update env c wk n reqs w s (f : event -> nat) :
  (forall ev, moves (dbUpdateWg_of w) ev = false -> f ev = 0) ->
  reachable env (ListenAndServe c wk n reqs w) s ->
  total f (snd <$> cs_trace s) = total f (thread_events 0 (cs_trace s)).
Proof.
  intros Hf Hreach.
  destruct (reachable_inv env _ s (ListenAndServe_trace c wk n reqs w) Hreach)
    as (Hlen & Hbound & Hpaths & _).
  rewrite (total_by_thread _ _ _ Hbound), ListenAndServe_pool.
  cbn [length seq sum_list_with].
  rewrite sum_with_zero; [lia|].
  intros i Hi. apply in_seq in Hi.
  destruct i as [|i]; [lia|].
  destruct (lookup_lt_is_Some_2 (handler c (dbUpdateWg_of w) (requestWg_of w) <$> reqs) i)
    as [p0 Hp0]; [lia|].
  destruct (Hpaths (S i) p0) as (p & _ & Hpath).
  { rewrite ListenAndServe_pool, lookup_cons. exact Hp0. }
  rewrite list_lookup_fmap in Hp0. destruct (reqs !! i) as [req|]; [|discriminate].
  injection Hp0 as <-.
  destruct (avoids_path (moves (dbUpdateWg_of w)) _ _ _
              (handler_avoids_mark c _ _ req (wait_groups_differ w)) Hpath) as [_ Hevs].
  apply total_zero. intros ev Hev. by apply Hf, Hevs.
Qed.

(** The counter of the mark is the number of raises the update goroutine has
    yet to undo, in a state where no [Done] on it has failed so far. *)
Lemma mark_accounting env c wk n reqs w s :
  reachable env (ListenAndServe c wk n reqs w) s ->
  (forall i, ~ In (i, EvWgDone (dbUpdateWg_of w) false) (cs_trace s)) ->
  exists p, cs_pool s !! 0 = Some p
            /\ brackets (dbUpdateWg_of w) p (wgCount (cs_world s) (dbUpdateWg_of w))
                 (fun _ k => k = 0)
            /\ wgCount (cs_world s) (dbUpdateWg_of w) <= 1.
Proof.
  intros Hreach Hhonest.
  destruct (reachable_inv env _ s (ListenAndServe_trace c wk n reqs w) Hreach)
    as (_ & _ & Hpaths & Hbal).
  destruct (Hpaths 0 _ eq_refl) as (p & Hp & Hpath).
  destruct (brackets_path (dbUpdateWg_of w) _ _ _ _ 0
              (updateGoroutine_brackets n wk c _ _ (wait_groups_differ w)) Hpath)
    as (k' & Hb & Hk' & Hsum); [|lia|].
  { intros Hin. by apply (Hhonest 0), thread_events_In. }
  specialize (Hbal (dbUpdateWg_of w)).
  rewrite (proj2 (ListenAndServe_counters c wk n reqs w)) in Hbal.
  assert (forall ev, moves (dbUpdateWg_of w) ev = false -> added (dbUpdateWg_of w) ev = 0)
    as Hadded by (intros ev Hev; by apply moves_false).
  assert (forall ev, moves (dbUpdateWg_of w) ev = false -> released (dbUpdateWg_of w) ev = 0)
    as Hreleased by (intros ev Hev; by apply moves_false).
  rewrite (mark_moved_by_update env c wk n reqs w s _ Hadded Hreach),
    (mark_moved_by_update env c wk n reqs w s _ Hreleased Hreach) in Hbal.
  assert (wgCount (cs_world s) (dbUpdateWg_of w) = k') as -> by lia.
  by exists p.
Qed.

(** [Done] on the counter of the mark never finds it at zero. *)
Lemma mark_Done_never_fails env c wk n reqs w s :
  reachable env (ListenAndServe c wk n reqs w) s ->
  forall i, ~ In (i, EvWgDone (dbUpdateWg_of w) false) (cs_trace s).
Proof.
  revert s. unfold reachable at 1.
  apply (rtc_ind_r
           (fun s => forall i, ~ In (i, EvWgDone (dbUpdateWg_of w) false) (cs_trace s)));
    [|intros s s' Hreach Hstep IH].
  - intros i. rewrite ListenAndServe_trace. intros [].
  - destruct Hstep as [i Hfire].
    apply fire_inv in Hfire as (X & e & k & x & w' & Hi & Hexec & ->).
    cbn [cs_trace]. intros j Hin.
    apply in_app_or in Hin as [Hin|[[= <- Hev]|[]]]; [by apply (IH j)|].
    pose proof (exec_Done_false env e _ _ x _ Hexec Hev) as Hzero.
    destruct i as [|i].
    + destruct (mark_accounting env c wk n reqs w s Hreach IH) as (p & Hp & Hb & _).
      rewrite Hi in Hp. injection Hp as <-. rewrite Hzero in Hb.
      destruct e; cbn [event_of] in Hev; try discriminate Hev.
      injection Hev as -> _. specialize (Hb true).
      cbn [brackets event_of] in Hb. rewrite Nat.eqb_refl in Hb.
      by destruct Hb as (k' & Hk' & _).
    + destruct (reachable_inv env _ s (ListenAndServe_trace c wk n reqs w) Hreach)
        as (Hlen & _ & Hpaths & _).
      assert (S i < length (cs_pool (ListenAndServe c wk n reqs w))) as Hi'.
      { rewrite <- Hlen. by eapply lookup_lt_Some. }
      destruct (lookup_lt_is_Some_2 _ _ Hi') as [p0 Hp0].
      destruct (Hpaths (S i) p0 Hp0) as (p & Hp & Hpath).
      rewrite Hi in Hp. injection Hp as <-.
      rewrite ListenAndServe_pool, lookup_cons, list_lookup_fmap in Hp0.
      destruct (reqs !! i) as [req|]; [|discriminate]. injection Hp0 as <-.
      destruct (avoids_path (moves (dbUpdateWg_of w)) _ _ _
                  (handler_avoids_mark c _ _ req (wait_groups_differ w)) Hpath)
        as [Hleft _].
      destruct (Hleft x) as [Hmoves _]. rewrite Hev in Hmoves. cbn in Hmoves.
      by rewrite Nat.eqb_refl in Hmoves.
Qed.



(** ** Where goroutines are held *)

(** Only a [Wait] on a counter that is not zero holds a goroutine. *)
Lemma exec_None env {X : Type} (e : action X) (w : World) :
  exec env e w = None ->
  exists (wg : loc) (x : X), event_of e x = EvWgWait wg /\ wgCount w wg <> 0.
Proof.
  destruct e; cbn [exec]; try discriminate.
  - by destruct (wgCount w wg).
  - destruct (wgCount w wg) eqn:Hc; [discriminate|]. intros _. exists wg, tt.
    split; [reflexivity|lia].
  - by destruct (Close env w).
  - by destruct (Init env dir w).
Qed.

Ltac waits_step :=
  first
    [ progress
        (cbn [avoids bind defer call hotUpdate update initializeMetricGauge
              time_Now_Unix Logger_Debug Logger_Info Logger_Errorf ioutil_TempDir
              os_RemoveAll db_Close db_Init utils_CopyFile WaitGroup_Add WaitGroup_Wait
              WaitGroup_Done GaugeVec_With_Set xerrors_Errorf event_of waits_elsewhere
              fst snd negb];
         rewrite ?updateLast_nil, ?updateLast_some, ?Nat.eqb_refl)
    | match goal with
      | |- forall _, _ => intros ?
      | |- _ /\ _ => split
      | |- _ = _ => reflexivity
      | |- True => exact I
      | |- context [snd ?x] => is_var x; destruct x
      | |- context [negb ?x] => is_var x; destruct x
      | |- context [match ?x with _ => _ end] => is_var x; destruct x
      | |- context [if ?x then _ else _] => is_var x; destruct x
      end ].

Lemma update_waits wk appVersion cacheDir dbUpdateWg requestWg gaugeMetric :
  avoids (waits_elsewhere requestWg)
    (update wk appVersion cacheDir dbUpdateWg requestWg gaugeMetric).
Proof. destruct gaugeMetric as [g|]; repeat waits_step. Qed.

Lemma updateLoop_waits n wk c dbUpdateWg requestWg gaugeMetric :
  avoids (waits_elsewhere requestWg) (updateLoop n wk c dbUpdateWg requestWg gaugeMetric).
Proof.
  induction n as [|n IH]; cbn [updateLoop]; [exact I|].
  apply avoids_bind; [apply update_waits|]. intros err.
  apply avoids_bind; [destruct err; repeat waits_step|]. intros _. exact IH.
Qed.

Lemma updateGoroutine_waits n wk c dbUpdateWg requestWg :
  avoids (waits_elsewhere requestWg) (updateGoroutine n wk c dbUpdateWg requestWg).
Proof.
  unfold updateGoroutine. apply avoids_bind.
  { destruct (GaugeMetric c); repeat waits_step. }
  intros err. apply avoids_bind; [destruct err; repeat waits_step|].
  intros g. apply updateLoop_waits.
Qed.

Lemma handler_waits c dbUpdateWg requestWg req :
  avoids (waits_elsewhere dbUpdateWg) (handler c dbUpdateWg requestWg req).
Proof.
  unfold handler, withToken, withWaitGroup, base_ServeHTTP, detector_WriteError.
  destruct (negb (String.eqb (Token c) EmptyString)
            && negb (String.eqb (Token c) (req_header req (TokenHeader c)))).
  - cbn. intros _. by split.
  - cbn [avoids bind defer call WaitGroup_Wait WaitGroup_Add WaitGroup_Done event_of
         waits_elsewhere].
    rewrite Nat.eqb_refl. intros _. split; [done|]. intros _. split; [done|].
    intros [seen out]. split; [done|].
    destruct out; cbn [snd avoids bind defer call WaitGroup_Done event_of waits_elsewhere];
      intros ok; (split; [done|]); by destruct ok.
Qed.



(** Why a goroutine that is not over cannot take a step: the update
    goroutine waits for the drain while a request is counted in, a request
    goroutine waits at the gate while the update is marked. *)
Lemma held_reason env c wk n reqs w s i p :
  reachable env (ListenAndServe c wk n reqs w) s ->
  cs_pool s !! i = Some p ->
  ~ finished p ->
  fire env i s = None ->
  (i = 0 /\ wgCount (cs_world s) (requestWg_of w) <> 0)
  \/ (0 < i /\ wgCount (cs_world s) (dbUpdateWg_of w) <> 0).
Proof.
  intros Hreach Hp Hgoing Hheld.
  destruct p as [a | | X e k]; [by destruct Hgoing..|].
  unfold fire in Hheld. rewrite Hp in Hheld.
  destruct (exec env e (cs_world s)) as [[x w']|] eqn:Hexec; [discriminate|].
  apply exec_None in Hexec as (wg & x & Hev & Hcount).
  destruct (reachable_inv env _ s (ListenAndServe_trace c wk n reqs w) Hreach)
    as (Hlen & _ & Hpaths & _).
  assert (i < length (cs_pool (ListenAndServe c wk n reqs w))) as Hi.
  { rewrite <- Hlen. by eapply lookup_lt_Some. }
  destruct (lookup_lt_is_Some_2 _ _ Hi) as [p0 Hp0].
  destruct (Hpaths i p0 Hp0) as (p & Hp' & Hpath).
  rewrite Hp in Hp'. injection Hp' as <-.
  rewrite ListenAndServe_pool, lookup_cons in Hp0. destruct i as [|i].
  - injection Hp0 as <-. left. split; [done|].
    destruct (avoids_path _ _ _ _ (updateGoroutine_waits n wk c _ _) Hpath) as [Hleft _].
    destruct (Hleft x) as [Hbad _]. rewrite Hev in Hbad. cbn in Hbad.
    apply negb_false_iff, Nat.eqb_eq in Hbad. by subst wg.
  - rewrite list_lookup_fmap in Hp0. destruct (reqs !! i) as [req|]; [|discriminate].
    injection Hp0 as <-. right. split; [lia|].
    destruct (avoids_path _ _ _ _ (handler_waits c _ _ req) Hpath) as [Hleft _].
    destruct (Hleft x) as [Hbad _]. rewrite Hev in Hbad. cbn in Hbad.
    apply negb_false_iff, Nat.eqb_eq in Hbad. by subst wg.
Qed.

(** A request goroutine that is not over takes a step when no update is
    marked. *)
Lemma request_goes_on env c wk n reqs w s i p :
  reachable env (ListenAndServe c wk n reqs w) s ->
  cs_pool s !! i = Some p ->
  0 < i ->
  ~ finished p ->
  wgCount (cs_world s) (dbUpdateWg_of w) = 0 ->
  exists s', fire env i s = Some s'.
Proof.
  intros Hreach Hp Hi Hgoing Hzero.
  destruct (fire env i s) as [s'|] eqn:Hfire; [by exists s'|].
  destruct (held_reason env c wk n reqs w s i p Hreach Hp Hgoing Hfire) as [[-> _]|[_ Hne]];
    [lia|done].
Qed.

(** X18. A goroutine that is not over and cannot take a step is held at one
    of two places: the update goroutine at the drain, while a request is
    counted in; a request goroutine at the gate, while the update is marked.
    Hence a request goroutine that is not over takes a step whenever the
    counter of the mark is zero, as it is once the update goroutine has
    returned. *)
Theorem held_only_at_gate_or_drain env c wk n reqs w s i p :
  reachable env (ListenAndServe c wk n reqs w) s ->
  cs_pool s !! i = Some p ->
  ~ finished p ->
  (fire env i s = None ->
   (i = 0 /\ wgCount (cs_world s) (requestWg_of w) <> 0)
   \/ (0 < i /\ wgCount (cs_world s) (dbUpdateWg_of w) = 1))
  /\ (0 < i ->
      wgCount (cs_world s) (dbUpdateWg_of w) = 0 \/ (exists a, cs_pool s !! 0 = Some (Ret a)) ->
      exists s', fire env i s = Some s').
Proof.
  intros Hreach Hp Hgoing.
  pose proof (mark_Done_never_fails env c wk n reqs w s Hreach) as Hhonest.
  destruct (mark_accounting env c wk n reqs w s Hreach Hhonest) as (p0 & Hp0 & Hb & Hle).
  split.
  - intros Hheld.
    destruct (held_reason env c wk n reqs w s i p Hreach Hp Hgoing Hheld)
      as [Hdrain|[Hi Hmark]]; [by left|right]. split; [done|lia].
  - intros Hi Hclear. apply (request_goes_on env c wk n reqs w s i p); try done.
    destruct Hclear as [Hzero|[a Ha]]; [exact Hzero|].
    rewrite Ha in Hp0. injection Hp0 as <-. exact Hb.
Qed.



Lemma held_only_at_gate_or_drain_witness :
  let s := default Scenario.racing
             (schedule (Scenario.env None None) (replicate 13 0) Scenario.racing) in
  reachable (Scenario.env None None) Scenario.racing s
  /\ fire (Scenario.env None None) 1 s = None
  /\ wgCount (cs_world s) (dbUpdateWg_of Scenario.world) = 1.
Proof.
  intros s.
  assert (reachable (Scenario.env None None) Scenario.racing s) as Hreach.
  { apply (schedule_reachable _ (replicate 13 0)). vm_compute. reflexivity. }
  assert (fire (Scenario.env None None) 1 s = None) as Hheld by (vm_compute; reflexivity).
  split; [exact Hreach|]. split; [exact Hheld|].
  destruct (held_only_at_gate_or_drain (Scenario.env None None) Scenario.config
              (newDBWorker Scenario.client) 1 [Scenario.request 0] Scenario.world s 1
              (handler Scenario.config (dbUpdateWg_of Scenario.world)
                 (requestWg_of Scenario.world) (Scenario.request 0)) Hreach)
    as [Hwhy _]; [vm_compute; reflexivity | intros Hover; exact Hover |].
  destruct (Hwhy Hheld) as [[Hzero _]|[_ Hmark]]; [discriminate Hzero | exact Hmark].
Defined.

